(** * QRBrandr: logo compositing, vector export and batch export

    A shallow embedding of the original logic of [src/App.tsx] (single QR
    generation, logo overlay, SVG export) and of the batch generator
    component (collection editing, CSV import, paginated PDF export),
    followed by the properties stated about them.

    Modelling conventions.
    - JavaScript strings are [string]s of code units in the ASCII range; the
      white space recognised by [trim] is the ASCII part of the ECMAScript
      WhiteSpace and LineTerminator classes.
    - JavaScript numbers that hold pixel or millimetre quantities are exact
      rationals ([Q]); IEEE-754 rounding is not modelled.  Loop counters and
      list indices are [nat]; clock readings ([Date.now()]) are [N].
    - External collaborators (the QR encoder, the canvas encoder, the image
      loader, number formatting) are Section variables. *)

From Stdlib Require Import List Arith Lia ZArith ZifyNat Bool.
From Stdlib Require Import NArith.
From Stdlib Require Import Ascii String.
From Stdlib Require Import DecimalString DecimalPos DecimalN.
From Stdlib Require Import QArith Qminmax Qround Lqa.
Import ListNotations.

Local Close Scope Q_scope.
Local Open Scope nat_scope.
Local Open Scope list_scope.
Local Open Scope string_scope.

(* ================================================================== *)
(** ** ECMAScript string primitives used by the program *)

Module JS.

  (** ASCII members of WhiteSpace and LineTerminator: TAB, LF, VT, FF, CR, SP. *)
Definition isWhiteSpace (c : ascii) : bool :=
    let n := nat_of_ascii c in
    ((9 <=? n)%nat && (n <=? 13)%nat) || (n =? 32)%nat.

Fixpoint trimStart (s : string) : string :=
    match s with
    | EmptyString => EmptyString
    | String c s' => if isWhiteSpace c then trimStart s' else s
    end.

Fixpoint trimEnd (s : string) : string :=
    match s with
    | EmptyString => EmptyString
    | String c s' =>
        match trimEnd s' with
        | EmptyString => if isWhiteSpace c then EmptyString else String c EmptyString
        | t => String c t
        end
    end.

  (** [String.prototype.trim] *)
Definition trim (s : string) : string := trimEnd (trimStart s).

  (** ToBoolean on a string: only the empty string is falsy. *)
Definition truthy (s : string) : bool :=
    match s with EmptyString => false | _ => true end.

Definition lowerChar (c : ascii) : ascii :=
    let n := nat_of_ascii c in
    if ((65 <=? n)%nat && (n <=? 90)%nat) then ascii_of_nat (n + 32) else c.

  (** [String.prototype.toLowerCase] *)
Fixpoint toLowerCase (s : string) : string :=
    match s with
    | EmptyString => EmptyString
    | String c s' => String (lowerChar c) (toLowerCase s')
    end.

  (** [String.prototype.indexOf]: position of the first occurrence. *)
Fixpoint indexOf (pat s : string) : option nat :=
    if prefix pat s then Some 0
    else match s with
         | EmptyString => None
         | String _ s' => option_map S (indexOf pat s')
         end.

  (** [String.prototype.includes] *)
Definition includes (pat s : string) : bool :=
    match indexOf pat s with Some _ => true | None => false end.

  (** [String.prototype.split] with a one-character separator. *)
Fixpoint split (sep : ascii) (s : string) : list string :=
    match s with
    | EmptyString => [EmptyString]
    | String c s' =>
        if Ascii.eqb c sep then EmptyString :: split sep s'
        else match split sep s' with
             | [] => [String c EmptyString]
             | w :: ws => String c w :: ws
             end
    end.

  (** [s.replace(/c/g, '')] for a one-character pattern [c]. *)
Fixpoint removeAll (c : ascii) (s : string) : string :=
    match s with
    | EmptyString => EmptyString
    | String d s' => if Ascii.eqb d c then removeAll c s' else String d (removeAll c s')
    end.

Fixpoint drop (n : nat) (s : string) : string :=
    match n, s with
    | O, _ => s
    | S _, EmptyString => EmptyString
    | S n', String _ s' => drop n' s'
    end.

Fixpoint take (n : nat) (s : string) : string :=
    match n, s with
    | O, _ => EmptyString
    | S _, EmptyString => EmptyString
    | S n', String c s' => String c (take n' s')
    end.

  (** GetSubstitution for a string pattern (no captures): [$$], [$&],
      [$`] and [$'] are expanded, every other character is copied. *)
Fixpoint getSubstitution (matched before after template : string) : string :=
    match template with
    | EmptyString => EmptyString
    | String c rest =>
        if Ascii.eqb c "$" then
          match rest with
          | String d rest' =>
              if Ascii.eqb d "$" then String "$" (getSubstitution matched before after rest')
              else if Ascii.eqb d "&" then matched ++ getSubstitution matched before after rest'
              else if Ascii.eqb d "`" then before ++ getSubstitution matched before after rest'
              else if Ascii.eqb d "'" then after ++ getSubstitution matched before after rest'
              else String c (getSubstitution matched before after rest)
          | EmptyString => String c EmptyString
          end
        else String c (getSubstitution matched before after rest)
    end.

  (** [String.prototype.replace] with a string pattern: only the first
      occurrence is replaced. *)
Definition replace (pat template s : string) : string :=
    match indexOf pat s with
    | None => s
    | Some n =>
        let before := take n s in
        let after := drop (n + length pat) s in
        before ++ getSubstitution pat before after template ++ after
    end.

  (** Number::toString on a non-negative integer. *)
Definition numToString (n : N) : string :=
    NilZero.string_of_uint (N.to_uint n).

  (** [String.prototype.substring(0, n)] *)
Definition substring0 (n : nat) (s : string) : string := take n s.

End JS.

(* ================================================================== *)
(** ** The batch generator component *)

Module BatchGenerator.

Record BatchItem : Type := mkItem {
    id : string;
    text : string;
    filename : option string   (* [filename?: string] *)
  }.

  (** [keyof BatchItem] *)
Inductive Field : Type := Fid | Ftext | Ffilename.

  (** Initial value of the [batchItems] state. *)
Definition initialItems : list BatchItem :=
    [ mkItem "1" "https://example.com" (Some "example-website");
      mkItem "2" "mailto:contact@company.com" (Some "contact-email");
      mkItem "3" "tel:+1234567890" (Some "phone-number") ].

  (** [addBatchItem], with [now] the reading of [Date.now()]. *)
Definition addBatchItem (now : N) (batchItems : list BatchItem) : list BatchItem :=
    let newItem :=
      mkItem (JS.numToString now) ""
             (Some ("qr-code-" ++ JS.numToString (N.of_nat (List.length batchItems + 1)))) in
    (batchItems ++ [newItem])%list.

  (** [{ ...item, [field]: value }] *)
Definition setField (item : BatchItem) (field : Field) (value : string) : BatchItem :=
    match field with
    | Fid => mkItem value (text item) (filename item)
    | Ftext => mkItem (id item) value (filename item)
    | Ffilename => mkItem (id item) (text item) (Some value)
    end.

Definition updateBatchItem (i : string) (field : Field) (value : string)
      (items : list BatchItem) : list BatchItem :=
    map (fun item => if String.eqb (id item) i then setField item field value else item) items.

Definition removeBatchItem (i : string) (items : list BatchItem) : list BatchItem :=
    filter (fun item => negb (String.eqb (id item) i)) items.

  (** *** CSV import *)

  (** [csv.split('\n').filter(line => line.trim())] *)
Definition csvLines (csv : string) : list string :=
    filter (fun line => JS.truthy (JS.trim line)) (JS.split "010" csv).

Definition isHeader (line : string) : bool :=
    JS.includes "text" (JS.toLowerCase line) || JS.includes "url" (JS.toLowerCase line).

  (** The [dataLines] of [handleCSVUpload]; [None] stands for the TypeError
      raised by [lines[0].toLowerCase()] when there is no line at all. *)
Definition dataLines (lines : list string) : option (list string) :=
    match lines with
    | [] => None
    | first :: rest => Some (if isHeader first then rest else lines)
    end.

  (** [line.split(',')] followed by [trim] and the removal of every
      double-quote character (code 34) from each part. *)
Definition csvFields (line : string) : list string :=
    map (fun s => JS.removeAll "034" (JS.trim s)) (JS.split "," line).

  (** The callback of [dataLines.map]; [now index] is the reading of
      [Date.now()] taken while the line at [index] is converted. *)
Definition lineToItem (now : nat -> N) (index : nat) (line : string) : BatchItem :=
    let fields := csvFields line in
    let text := nth 0 fields "" in                (* [text || ''] *)
    let filename :=
      match nth_error fields 1 with
      | Some f => if JS.truthy f then f
                  else "qr-code-" ++ JS.numToString (N.of_nat (index + 1))
      | None => "qr-code-" ++ JS.numToString (N.of_nat (index + 1))
      end in
    mkItem (JS.numToString (now index + N.of_nat index)) text (Some filename).

Fixpoint mapi_from {A B : Type} (f : nat -> A -> B) (i : nat) (l : list A) : list B :=
    match l with
    | [] => []
    | x :: l' => f i x :: mapi_from f (S i) l'
    end.

  (** [Array.prototype.map] with the index passed to the callback. *)
Definition mapi {A B : Type} (f : nat -> A -> B) (l : list A) : list B :=
    mapi_from f 0 l.

Definition newItems (now : nat -> N) (data : list string) : list BatchItem :=
    filter (fun item => JS.truthy (text item)) (mapi (lineToItem now) data).

  (** Outcome of the [reader.onload] callback. *)
Inductive Outcome (S : Type) : Type :=
  | Done (s : S)        (* ran to completion with state [s] *)
  | Threw.              (* an exception escaped; the state was not set *)
Arguments Done {S} s.
Arguments Threw {S}.

  (** [handleCSVUpload]: [file] is the text of [event.target.files?.[0]],
      [None] when no file was chosen. *)
Definition handleCSVUpload (now : nat -> N) (file : option string)
      (batchItems : list BatchItem) : Outcome (list BatchItem) :=
    match file with
    | None => Done batchItems
    | Some csv =>
        match dataLines (csvLines csv) with
        | None => Threw
        | Some data => Done (newItems now data)
        end
    end.

  (** *** Batch export *)

Inductive BatchExportFormat : Type := png_zip | pdf_pages | pdf_grid.

  (** Calls made on a jsPDF document, in program order. *)
Inductive PdfOp : Type :=
  | AddPage
  | SetFontSize (pt : nat)
  | SetTextColor (r g b : nat)
  | PdfText (lines : list string) (x y : Q)         (* [text(.., x, y, {align: 'center'})] *)
  | AddImage (dataUrl : string) (x y w h : Q).      (* [addImage(dataUrl, 'PNG', x, y, w, h)] *)

  (** What the user receives. *)
Inductive Effect : Type :=
  | Click (download href : string)                  (* [link.click()] *)
  | Saved (file : string) (doc : list PdfOp).       (* [pdf.save(file)] *)

Inductive BatchOutcome : Type :=
  | Skipped                                         (* the early [return] *)
  | Completed (effects : list Effect)
  | Aborted (effects : list Effect).                (* the [catch] branch *)

Definition Qnat (n : nat) : Q := inject_Z (Z.of_nat n).

  (** [s || d] on an optional string. *)
Definition orElse (s : option string) (d : string) : string :=
    match s with
    | Some v => if JS.truthy v then v else d
    | None => d
    end.

Definition nonBlank (item : BatchItem) : bool := JS.truthy (JS.trim (text item)).

Section ExportLoops.

    (** [generateQRCodeDataURL] at the component's fixed size and
        error-correction level: the PNG data URL of the encoder's canvas,
        [None] when the encoder rejects the text. *)
Variable generateQRCodeDataURL : string -> option string.
    (** [pdf.internal.pageSize.getWidth()] and [getHeight()] for A4. *)
Variables pdfWidth pdfHeight : Q.
    (** [pdf.splitTextToSize] *)
Variable splitTextToSize : string -> Q -> list string.

    (** The [for (const item of validItems)] loop of the PNG export. *)
Fixpoint pngLoop (items : list BatchItem) (done : list Effect) : BatchOutcome :=
      match items with
      | [] => Completed done
      | item :: rest =>
          match generateQRCodeDataURL (text item) with
          | None => Aborted done
          | Some dataUrl =>
              pngLoop rest (done ++ [Click (orElse (filename item) "qr-code" ++ ".png") dataUrl])%list
          end
      end.

    (** The loop of the one-per-page export, from index [i] on. *)
Fixpoint pagesLoop (i : nat) (items : list BatchItem) (doc : list PdfOp)
        : option (list PdfOp) :=
      match items with
      | [] => Some doc
      | item :: rest =>
          let doc := if (0 <? i)%nat then (doc ++ [AddPage])%list else doc in
          match generateQRCodeDataURL (text item) with
          | None => None
          | Some dataUrl =>
              let qrSizeMM := Qmin (pdfWidth * (6#10)) (pdfHeight * (6#10)) in
              let xPos := (pdfWidth - qrSizeMM) / 2 in
              let yPos := (pdfHeight - qrSizeMM) / 2 in
              let maxWidth := pdfWidth - 40 in
              let textLines := splitTextToSize (text item) maxWidth in
              pagesLoop (S i) rest
                (doc ++ [ SetFontSize 16; SetTextColor 0 0 0;
                          PdfText [orElse (filename item)
                                     ("QR Code " ++ JS.numToString (N.of_nat (i + 1)))]
                                  (pdfWidth / 2) 30;
                          AddImage dataUrl xPos yPos qrSizeMM qrSizeMM;
                          SetFontSize 10; SetTextColor 100 100 100;
                          PdfText textLines (pdfWidth / 2) (yPos + qrSizeMM + 20) ])%list
          end
      end%Q.

Definition margin : Q := 20.
Definition cols : nat := 2.
Definition rows : nat := 3.
Definition cellWidth : Q := (pdfWidth - margin * 2) / Qnat cols.
Definition cellHeight : Q := (pdfHeight - margin * 2) / Qnat rows.
Definition qrSizeMM : Q := Qmin (cellWidth * (7#10)) (cellHeight * (5#10)).

    (** The loop of the grid export, from index [i] on, with the loop's
        mutable [currentPage]. *)
Fixpoint gridLoop (i : nat) (items : list BatchItem) (currentPage : nat)
        (doc : list PdfOp) : option (list PdfOp) :=
      match items with
      | [] => Some doc
      | item :: rest =>
          let pageIndex := (i / (cols * rows))%nat in
          let cellIndex := (i mod (cols * rows))%nat in
          let '(doc, currentPage) :=
            if (currentPage <? pageIndex)%nat
            then ((doc ++ [AddPage])%list, pageIndex)
            else (doc, currentPage) in
          let col := (cellIndex mod cols)%nat in
          let row := (cellIndex / cols)%nat in
          let x := margin + Qnat col * cellWidth in
          let y := margin + Qnat row * cellHeight in
          match generateQRCodeDataURL (text item) with
          | None => None
          | Some dataUrl =>
              let qrX := x + (cellWidth - qrSizeMM) / 2 in
              let qrY := y + 10 in
              let truncatedText :=
                if (30 <? String.length (text item))%nat
                then JS.substring0 30 (text item) ++ "..."
                else text item in
              gridLoop (S i) rest currentPage
                (doc ++ [ AddImage dataUrl qrX qrY qrSizeMM qrSizeMM;
                          SetFontSize 8; SetTextColor 0 0 0;
                          PdfText [orElse (filename item)
                                     ("QR " ++ JS.numToString (N.of_nat (i + 1)))]
                                  (x + cellWidth / 2) (qrY + qrSizeMM + 8);
                          SetFontSize 6; SetTextColor 100 100 100;
                          PdfText [truncatedText] (x + cellWidth / 2) (qrY + qrSizeMM + 15) ])%list
          end
      end%Q.

    (** [downloadBatch]; [now] is the clock reading used in the file name. *)
Definition downloadBatch (selectedFormat : BatchExportFormat) (now : N)
        (batchItems : list BatchItem) : BatchOutcome :=
      if (List.length batchItems =? 0)%nat
         || forallb (fun item => negb (JS.truthy (JS.trim (text item)))) batchItems
      then Skipped
      else
        let validItems := filter (fun item => JS.truthy (JS.trim (text item))) batchItems in
        match selectedFormat with
        | png_zip => pngLoop validItems []
        | pdf_pages =>
            match pagesLoop 0 validItems [] with
            | Some doc => Completed [Saved ("qrbrandr-batch-" ++ JS.numToString now ++ ".pdf") doc]
            | None => Aborted []
            end
        | pdf_grid =>
            match gridLoop 0 validItems 0 [] with
            | Some doc => Completed [Saved ("qrbrandr-grid-" ++ JS.numToString now ++ ".pdf") doc]
            | None => Aborted []
            end
        end.

End ExportLoops.

  (** *** Reading a jsPDF call sequence *)

Definition isAddPage (op : PdfOp) : bool :=
    match op with AddPage => true | _ => false end.

Definition isAddImage (op : PdfOp) : bool :=
    match op with AddImage _ _ _ _ _ => true | _ => false end.

  (** Page breaks and images only. *)
Definition layoutOf (doc : list PdfOp) : list PdfOp :=
    filter (fun op => isAddPage op || isAddImage op) doc.

  (** A new document has one page; [addPage] appends a page and makes it
      current; an image lands on the current page.  [placedFrom p doc] lists
      the images of [doc] with the 0-based page each lands on, [p] being the
      current page at the start. *)
Fixpoint placedFrom (page : nat) (doc : list PdfOp) : list (nat * PdfOp) :=
    match doc with
    | [] => []
    | AddPage :: rest => placedFrom (S page) rest
    | AddImage u x y w h :: rest => (page, AddImage u x y w h) :: placedFrom page rest
    | _ :: rest => placedFrom page rest
    end.

Definition placed (doc : list PdfOp) : list (nat * PdfOp) := placedFrom 0 doc.

Definition pageCount (doc : list PdfOp) : nat :=
    S (List.length (filter isAddPage doc)).

Definition imagesOnPage (p : nat) (doc : list PdfOp) : list PdfOp :=
    map snd (filter (fun e => (fst e =? p)%nat) (placed doc)).

  (** Number of QR images delivered by an outcome. *)
Definition effectImages (e : Effect) : nat :=
    match e with
    | Click _ _ => 1
    | Saved _ doc => List.length (filter isAddImage doc)
    end.

Definition delivered (o : BatchOutcome) : list Effect :=
    match o with
    | Skipped => []
    | Completed es => es
    | Aborted es => es
    end.

Definition imagesDelivered (o : BatchOutcome) : nat :=
    list_sum (map effectImages (delivered o)).

(** *** Preview and controls *)

(** The items shown in the preview grid:
    [batchItems.filter(item => item.text.trim()).slice(0, 12)]. *)
Definition previewItems (batchItems : list BatchItem) : list BatchItem :=
  firstn 12 (filter (fun item => JS.truthy (JS.trim (text item))) batchItems).

(** The number announced by the line "... and N more items", [None] when
    the line is not rendered. *)
Definition previewMore (batchItems : list BatchItem) : option nat :=
  let n := List.length (filter (fun item => JS.truthy (JS.trim (text item))) batchItems) in
  if (12 <? n)%nat then Some (n - 12) else None.

(** The [disabled] attribute of the download button. *)
Definition downloadDisabled (isGenerating : bool) (batchItems : list BatchItem) : bool :=
  isGenerating || forallb (fun item => negb (JS.truthy (JS.trim (text item)))) batchItems.

End BatchGenerator.

(* ================================================================== *)
(** ** The single-code generator ([App.tsx]) *)

Module App.

Local Open Scope Q_scope.

Inductive ErrorCorrectionLevel : Type := EcL | EcM | EcQ | EcH.
Inductive LogoShape : Type := square | rounded.
Inductive ExportFormat : Type := png | svg | pdf.

(** An uploaded logo file and a decoded image are identified by name. *)
Definition File : Type := string.
Definition Image : Type := string.

Record QROptions : Type := mkOptions {
  text : string;
  size : Q;
  errorCorrectionLevel : ErrorCorrectionLevel;
  logoSize : Q;
  logoFile : option File;
  logoShape : LogoShape
}.

(** Theme colours handed to the encoder and used for the logo background. *)
Definition darkColor (isDarkMode : bool) : string :=
  if isDarkMode then "#ffffff" else "#000000".
Definition lightColor (isDarkMode : bool) : string :=
  if isDarkMode then "#1f2937" else "#ffffff".

(** *** Raster path: calls on the 2d context *)

Inductive CanvasOp : Type :=
| Resize (w h : Q)                                   (* [canvas.width = w; canvas.height = h] *)
| DrawQR (text : string) (width : Q) (margin : nat)
         (level : ErrorCorrectionLevel) (dark light : string)   (* [QRCode.toCanvas] *)
| FillStyle (colour : string)
| BeginPath
| Arc (cx cy r : Q)                                  (* [arc(cx, cy, r, 0, 2 * Math.PI)] *)
| Fill
| Save
| Clip
| Restore
| FillRect (x y w h : Q)
| DrawImage (img : Image) (x y w h : Q).

(** The body of [img.onload] in [generateQRCode]. *)
Definition drawLogo (options : QROptions) (isDarkMode : bool) (img : Image)
    : list CanvasOp :=
  let logoSizePixels := (size options * logoSize options) / 100 in
  let x := (size options - logoSizePixels) / 2 in
  let y := (size options - logoSizePixels) / 2 in
  let padding := logoSizePixels * (1#10) in
  FillStyle (lightColor isDarkMode) ::
  match logoShape options with
  | rounded =>
      let radius := (logoSizePixels + padding * 2) / 2 in
      let centerX := x - padding + radius in
      let centerY := y - padding + radius in
      [ BeginPath; Arc centerX centerY radius; Fill;
        Save; BeginPath;
        Arc (x + logoSizePixels / 2) (y + logoSizePixels / 2) (logoSizePixels / 2);
        Clip;
        DrawImage img x y logoSizePixels logoSizePixels;
        Restore ]
  | square =>
      [ FillRect (x - padding) (y - padding)
                 (logoSizePixels + padding * 2) (logoSizePixels + padding * 2);
        DrawImage img x y logoSizePixels logoSizePixels ]
  end.

(** The component state touched by [generateQRCode].  [canvas] is [None]
    when [canvasRef.current] or its 2d context is missing, otherwise the
    calls made on it so far; [errors] counts [console.error] calls. *)
Record AppState : Type := mkState {
  options : QROptions;
  isDarkMode : bool;
  qrDataUrl : string;
  qrSvgString : string;
  isGenerating : bool;
  canvas : option (list CanvasOp);
  errors : nat
}.

Section Generate.

(** Whether the encoder accepts a text at a level ([QRCode.toCanvas] and
    [QRCode.toString] reject otherwise). *)
Variable encodable : string -> ErrorCorrectionLevel -> bool.
(** [QRCode.toString(text, {type: 'svg', width, margin: 2, ...})] *)
Variable toSvgString : string -> Q -> ErrorCorrectionLevel -> string -> string -> string.
(** [canvas.toDataURL('image/png')] *)
Variable toDataURL : list CanvasOp -> string.
(** The image decoded from a file, [None] when [onload] never fires. *)
Variable loadImage : File -> option Image.

Definition finish (st : AppState) (url svgs : string) (cv : option (list CanvasOp))
    (errs : nat) : AppState :=
  mkState (options st) (isDarkMode st) url svgs false cv errs.

(** [generateQRCode], run to the point where its callbacks have fired. *)
Definition generateQRCode (st : AppState) : AppState :=
  let o := options st in
  if negb (JS.truthy (JS.trim (text o))) then st
  else
    match canvas st with
    | None => finish st (qrDataUrl st) (qrSvgString st) None (errors st)
    | Some _ =>
        let dark := darkColor (isDarkMode st) in
        let light := lightColor (isDarkMode st) in
        let resized := [Resize (size o) (size o)] in
        if negb (encodable (text o) (errorCorrectionLevel o))
        then finish st (qrDataUrl st) (qrSvgString st) (Some resized) (S (errors st))
        else
          let base := (resized ++
                       [DrawQR (text o) (size o) 2 (errorCorrectionLevel o) dark light])%list in
          let svgString := toSvgString (text o) (size o) (errorCorrectionLevel o) dark light in
          match logoFile o with
          | Some f =>
              match loadImage f with
              | Some img =>
                  let drawn := (base ++ drawLogo o (isDarkMode st) img)%list in
                  finish st (toDataURL drawn) svgString (Some drawn) (errors st)
              | None => finish st (qrDataUrl st) svgString (Some base) (errors st)
              end
          | None => finish st (toDataURL base) svgString (Some base) (errors st)
          end
    end.

End Generate.

(** *** Vector path: elements appended to the SVG document *)

Inductive SvgElem : Type :=
| SvgCircle (cx cy r : Q) (fill : string)
| SvgRect (x y width height : Q) (fill : string)
| SvgClipCircle (id : string) (cx cy r : Q)          (* [<defs><clipPath id=..><circle ../></clipPath></defs>] *)
| SvgImage (x y width height : Q) (href : string) (clipPath : option string).

(** [backgroundRect] and [logoElement] of [downloadQRCode], before they
    are written out as text. *)
Definition logoElements (options : QROptions) (isDarkMode : bool) (logoDataUrl : string)
    : list SvgElem * list SvgElem :=
  let logoSizePercent := logoSize options in
  let logoSize := (size options * logoSizePercent) / 100 in
  let x := (size options - logoSize) / 2 in
  let y := (size options - logoSize) / 2 in
  let padding := logoSize * (1#10) in
  let backgroundRect :=
    match logoShape options with
    | rounded => [SvgCircle (x + logoSize / 2) (y + logoSize / 2) ((logoSize + padding * 2) / 2)
                            (lightColor isDarkMode)]
    | square => [SvgRect (x - padding) (y - padding)
                         (logoSize + padding * 2) (logoSize + padding * 2)
                         (lightColor isDarkMode)]
    end in
  let logoElement :=
    match logoShape options with
    | rounded => [SvgClipCircle "logoClip" (x + logoSize / 2) (y + logoSize / 2) (logoSize / 2);
                  SvgImage x y logoSize logoSize logoDataUrl (Some "logoClip")]
    | square => [SvgImage x y logoSize logoSize logoDataUrl None]
    end in
  (backgroundRect, logoElement).

Local Close Scope Q_scope.

(** The double-quote character delimiting attribute values. *)
Definition dq : string := String "034" EmptyString.

Definition attr (name value : string) : string :=
  " " ++ name ++ "=" ++ dq ++ value ++ dq.

Section Render.

(** Number::toString, as used by the template literals. *)
Variable show : Q -> string.

Definition renderElem (e : SvgElem) : string :=
  match e with
  | SvgCircle cx cy r fill =>
      "<circle" ++ attr "cx" (show cx) ++ attr "cy" (show cy) ++ attr "r" (show r)
      ++ attr "fill" fill ++ "/>"
  | SvgRect x y w h fill =>
      "<rect" ++ attr "x" (show x) ++ attr "y" (show y) ++ attr "width" (show w)
      ++ attr "height" (show h) ++ attr "fill" fill ++ "/>"
  | SvgClipCircle i cx cy r =>
      "<defs><clipPath" ++ attr "id" i ++ "><circle" ++ attr "cx" (show cx)
      ++ attr "cy" (show cy) ++ attr "r" (show r) ++ "/></clipPath></defs>"
  | SvgImage x y w h href clip =>
      "<image" ++ attr "x" (show x) ++ attr "y" (show y) ++ attr "width" (show w)
      ++ attr "height" (show h) ++ attr "href" href
      ++ match clip with
         | Some i => attr "clip-path" ("url(#" ++ i ++ ")")
         | None => ""
         end
      ++ "/>"
  end.

Fixpoint render (es : list SvgElem) : string :=
  match es with
  | [] => ""
  | e :: es' => renderElem e ++ render es'
  end.

(** The text handed to [svgContent.replace('</svg>', ..)]. *)
Definition logoMarkup (options : QROptions) (isDarkMode : bool) (logoDataUrl : string)
    : string :=
  let '(backgroundRect, logoElement) := logoElements options isDarkMode logoDataUrl in
  render backgroundRect ++ render logoElement ++ "</svg>".

(** The SVG branch of [downloadQRCode]: the content of the downloaded
    file, [None] when nothing is downloaded.  [logoDataUrl f] is the PNG
    data URL of the logo redrawn at its final size, [None] when [onload]
    never fires or no 2d context is available. *)
Definition downloadSvg (options : QROptions) (isDarkMode : bool) (qrSvgString : string)
    (logoDataUrl : File -> option string) : option string :=
  if negb (JS.truthy qrSvgString) then None
  else
    match logoFile options with
    | Some f =>
        match logoDataUrl f with
        | Some url => Some (JS.replace "</svg>" (logoMarkup options isDarkMode url) qrSvgString)
        | None => None
        end
    | None => Some qrSvgString
    end.

End Render.

(** *** What ends up painted *)

Local Open Scope Q_scope.

Inductive Region : Type :=
| Disc (cx cy r : Q)
| Box (x y w h : Q).

Inductive Paint : Type :=
| Colour (c : string)
| Bitmap (img : string)
| QRSymbol (text : string).

(** One painted shape; it shows only inside every region of [clips]. *)
Record Layer : Type := mkLayer {
  shape : Region;
  paint : Paint;
  clips : list Region
}.

(** Drawing state of a 2d context: fill style, current path (the program
    only ever builds one-arc paths), clipping regions and the [save] stack. *)
Record Ctx : Type := mkCtx {
  fillStyle : string;
  path : option Region;
  clipping : list Region;
  saved : list (string * list Region)
}.

Definition initCtx : Ctx := mkCtx "#000000" None [] [].

(** Layers in painting order, earliest first. *)
Fixpoint runCanvas (c : Ctx) (painted : list Layer) (ops : list CanvasOp) : list Layer :=
  match ops with
  | [] => painted
  | op :: rest =>
      match op with
      | Resize _ _ => runCanvas initCtx [] rest
      | DrawQR t w _ _ _ _ =>
          runCanvas c (painted ++ [mkLayer (Box 0 0 w w) (QRSymbol t) []])%list rest
      | FillStyle s => runCanvas (mkCtx s (path c) (clipping c) (saved c)) painted rest
      | BeginPath => runCanvas (mkCtx (fillStyle c) None (clipping c) (saved c)) painted rest
      | Arc cx cy r =>
          runCanvas (mkCtx (fillStyle c) (Some (Disc cx cy r)) (clipping c) (saved c)) painted rest
      | Fill =>
          match path c with
          | Some rg =>
              runCanvas c (painted ++ [mkLayer rg (Colour (fillStyle c)) (clipping c)])%list rest
          | None => runCanvas c painted rest
          end
      | Save =>
          runCanvas (mkCtx (fillStyle c) (path c) (clipping c)
                           ((fillStyle c, clipping c) :: saved c)) painted rest
      | Clip =>
          match path c with
          | Some rg => runCanvas (mkCtx (fillStyle c) (path c) (rg :: clipping c) (saved c))
                                 painted rest
          | None => runCanvas c painted rest
          end
      | Restore =>
          match saved c with
          | (s, cl) :: stack => runCanvas (mkCtx s (path c) cl stack) painted rest
          | [] => runCanvas c painted rest
          end
      | FillRect x y w h =>
          runCanvas c (painted ++ [mkLayer (Box x y w h) (Colour (fillStyle c)) (clipping c)])%list
                    rest
      | DrawImage img x y w h =>
          runCanvas c (painted ++ [mkLayer (Box x y w h) (Bitmap img) (clipping c)])%list rest
      end
  end.

Definition clipOf (defs : list (string * Region)) (i : string) : list Region :=
  match find (fun d => String.eqb (fst d) i) defs with
  | Some d => [snd d]
  | None => []
  end.

(** Layers of a run of SVG elements, in document (painting) order. *)
Fixpoint runSvg (defs : list (string * Region)) (es : list SvgElem) : list Layer :=
  match es with
  | [] => []
  | SvgCircle cx cy r fill :: rest => mkLayer (Disc cx cy r) (Colour fill) [] :: runSvg defs rest
  | SvgRect x y w h fill :: rest => mkLayer (Box x y w h) (Colour fill) [] :: runSvg defs rest
  | SvgClipCircle i cx cy r :: rest => runSvg ((i, Disc cx cy r) :: defs) rest
  | SvgImage x y w h href clip :: rest =>
      mkLayer (Box x y w h) (Bitmap href)
              (match clip with Some i => clipOf defs i | None => [] end)
      :: runSvg defs rest
  end.

(** Closed region, and its interior. *)
Definition inRegion (rg : Region) (px py : Q) : Prop :=
  match rg with
  | Disc cx cy r => 0 <= r /\ (px - cx) * (px - cx) + (py - cy) * (py - cy) <= r * r
  | Box x y w h => x <= px /\ px <= x + w /\ y <= py /\ py <= y + h
  end.

Definition inInterior (rg : Region) (px py : Q) : Prop :=
  match rg with
  | Disc cx cy r => 0 < r /\ (px - cx) * (px - cx) + (py - cy) * (py - cy) < r * r
  | Box x y w h => x < px /\ px < x + w /\ y < py /\ py < y + h
  end.

(** The points a layer can touch, and the points it is sure to cover
    with room to spare. *)
Definition shows (l : Layer) (px py : Q) : Prop :=
  inRegion (shape l) px py /\ Forall (fun rg => inRegion rg px py) (clips l).

Definition coversStrictly (l : Layer) (px py : Q) : Prop :=
  inInterior (shape l) px py /\ Forall (fun rg => inInterior rg px py) (clips l).

(** The rectangle of the first image drawn. *)
Fixpoint drawnImage (ops : list CanvasOp) : option (Q * Q * Q * Q) :=
  match ops with
  | [] => None
  | DrawImage _ x y w h :: _ => Some (x, y, w, h)
  | _ :: rest => drawnImage rest
  end.

Fixpoint placedImage (es : list SvgElem) : option (Q * Q * Q * Q) :=
  match es with
  | [] => None
  | SvgImage x y w h _ _ :: _ => Some (x, y, w, h)
  | _ :: rest => placedImage rest
  end.

(** *** Download of the single code *)

(** What [downloadQRCode] hands to the browser. *)
Inductive Download : Type :=
| LinkClick (download href : string)                 (* anchor pointing at a data URL *)
| BlobClick (download content : string)              (* anchor pointing at a Blob of [content] *)
| PdfSave (file : string) (doc : list BatchGenerator.PdfOp).

Section DownloadQRCode.

(** Number::toString, as used by the template literals. *)
Variable show : Q -> string.
(** The PNG data URL of the logo redrawn at its final size, [None] when
    [onload] never fires or no 2d context is available. *)
Variable logoDataUrl : File -> option string.
(** [pdf.internal.pageSize.getWidth()] and [getHeight()] for A4. *)
Variables pdfWidth pdfHeight : Q.
(** [new Date().toLocaleDateString()] *)
Variable today : string.

(** [downloadQRCode]; [timestamp] is the reading of [Date.now()]. *)
Definition downloadQRCode (selectedFormat : ExportFormat) (timestamp : N) (st : AppState)
    : list Download :=
  let isPng := match selectedFormat with png => true | _ => false end in
  let isSvg := match selectedFormat with svg => true | _ => false end in
  if negb (JS.truthy (qrDataUrl st)) && isPng then []
  else if negb (JS.truthy (qrSvgString st)) && isSvg then []
  else
    let baseFilename := "qrbrandr-qr-code-" ++ JS.numToString timestamp in
    match selectedFormat with
    | png => [LinkClick (baseFilename ++ ".png") (qrDataUrl st)]
    | svg =>
        match downloadSvg show (options st) (isDarkMode st) (qrSvgString st) logoDataUrl with
        | Some svgContent => [BlobClick (baseFilename ++ ".svg") svgContent]
        | None => []
        end
    | pdf =>
        let qrSizeMM := Qmin (pdfWidth * (6#10)) (pdfHeight * (6#10)) in
        let xPos := (pdfWidth - qrSizeMM) / 2 in
        let yPos := (pdfHeight - qrSizeMM) / 2 in
        let t := text (options st) in
        [PdfSave (baseFilename ++ ".pdf")
           ([ BatchGenerator.SetFontSize 20; BatchGenerator.SetTextColor 0 0 0;
              BatchGenerator.PdfText ["QR Code"] (pdfWidth / 2) 30 ]
            ++ (if JS.truthy (qrDataUrl st)
                then [BatchGenerator.AddImage (qrDataUrl st) xPos yPos qrSizeMM qrSizeMM]
                else [])
            ++ [ BatchGenerator.SetFontSize 10; BatchGenerator.SetTextColor 100 100 100;
                 BatchGenerator.PdfText [("Generated by QRBrandr on " ++ today)%string]
                   (pdfWidth / 2) (pdfHeight - 20);
                 BatchGenerator.PdfText
                   [("Content: " ++ JS.substring0 50 t
                     ++ (if (50 <? String.length t)%nat then "..." else ""))%string]
                   (pdfWidth / 2) (pdfHeight - 15) ])%list]
    end.

End DownloadQRCode.

End App.

(* ================================================================== *)
(** * Vocabulary of the properties *)

Section StringVocabulary.

Import JS.

(** Case-insensitive containment of a lower-case token. *)
Definition containsIgnoringCase (line token : string) : Prop :=
  exists a w b, line = a ++ w ++ b /\ toLowerCase w = token.

(** A string is blank when it holds white space only. *)
Fixpoint blank (s : string) : Prop :=
  match s with
  | EmptyString => True
  | String c s' => isWhiteSpace c = true /\ blank s'
  end.

(** The line-feed character as a string. *)
Definition nl : string := String "010" EmptyString.

(** No character of the string is a dollar sign, the only character
    [replace] treats specially in a replacement text. *)
Fixpoint noDollar (s : string) : bool :=
  match s with
  | EmptyString => true
  | String c s' => negb (Ascii.eqb c "$") && noDollar s'
  end.

(** Number of positions of [s] at which [pat] occurs. *)
Fixpoint occurrences (pat s : string) : nat :=
  match s with
  | EmptyString => if prefix pat s then 1 else 0
  | String _ s' => (if prefix pat s then 1 else 0) + occurrences pat s'
  end.

End StringVocabulary.

Section BatchVocabulary.

Import BatchGenerator.

Definition importScenario : string :=
  "text,filename" ++ nl ++ "https://a.com,site-a" ++ nl ++ "tel:+1,phone".

(** The payload of a data line: its first field. *)
Definition payloadOf (line : string) : string := nth 0 (csvFields line) "".

Definition headerlessImport : string :=
  "https://example.com/url-shortener,short" ++ nl ++ "https://b.com,b".

Definition idsDistinct (items : list BatchItem) : Prop := NoDup (map id items).

(** A header-less file of 1000 lines, [https://example.com/p/k,page-k]. *)
Definition longImportLines : list string :=
  map (fun k => "https://example.com/p/" ++ JS.numToString (N.of_nat k)
                ++ ",page-" ++ JS.numToString (N.of_nat k))
      (seq 1 1000).

Definition longImport : string := String.concat nl longImportLines.

Definition sampleEncoder (payload : string) : option string :=
  Some ("data:image/png;base64," ++ payload).

(** Thirteen valid items with a blank one in between. *)
Definition fourteenItems : list BatchGenerator.BatchItem :=
  map (fun n => BatchGenerator.mkItem (JS.numToString (N.of_nat n))
                  (if (n =? 5)%nat then "   " else "https://example.com/" ++ JS.numToString (N.of_nat n))
                  None)
      (seq 1 14).

Definition clicks (es : list Effect) : nat := list_sum (map effectImages es).

Definition images (doc : list PdfOp) : nat := List.length (filter isAddImage doc).

Section Grid.

Variable generateQRCodeDataURL : string -> option string.
Variables pdfWidth pdfHeight : Q.

(** Iterations that open a new page: 6, 12, 18, ... *)
Definition breakAt (i : nat) : bool := (0 <? i)%nat && (i mod 6 =? 0)%nat.

Definition urlOf (item : BatchItem) : string :=
  match generateQRCodeDataURL (text item) with
  | Some dataUrl => dataUrl
  | None => ""
  end.

(** The image of the item at index [i]: column [i mod 2], row
    [(i mod 6) / 2] of the 2 x 3 grid. *)
Definition gridImage (i : nat) (item : BatchItem) : PdfOp :=
  let col := i mod 2 in
  let row := (i mod 6) / 2 in
  AddImage (urlOf item)
    (margin + Qnat col * cellWidth pdfWidth
     + (cellWidth pdfWidth - qrSizeMM pdfWidth pdfHeight) / 2)%Q
    (margin + Qnat row * cellHeight pdfHeight + 10)%Q
    (qrSizeMM pdfWidth pdfHeight) (qrSizeMM pdfWidth pdfHeight).

Definition gridCell (i : nat) (item : BatchItem) : list PdfOp :=
  ((if breakAt i then [AddPage] else []) ++ [gridImage i item])%list.

End Grid.

End BatchVocabulary.

Section AppVocabulary.

Import JS App.

Definition plainElem (e : SvgElem) : bool :=
  match e with
  | SvgCircle _ _ _ fill => noDollar fill
  | SvgRect _ _ _ _ fill => noDollar fill
  | SvgClipCircle i _ _ _ => noDollar i
  | SvgImage _ _ _ _ href clip =>
      noDollar href && match clip with Some i => noDollar i | None => true end
  end.

(** A stand-in for number formatting: the integer part, in decimal. *)
Definition showFloor (q : Q) : string :=
  NilZero.string_of_int (Z.to_int (Qfloor q)).

Definition blankRequest : App.AppState :=
  App.mkState (App.mkOptions "   " 300 App.EcH 20 None App.rounded)
              false "data:previous" "<svg></svg>" false (Some []) 0.

Local Open Scope Q_scope.

(** Side of the logo actually drawn for a request. *)
Definition logoWidth (o : QROptions) : option Q :=
  match drawnImage (drawLogo o false "logo") with
  | Some (_, _, w, _) => Some w
  | None => None
  end.

(** A request is rejected when no logo is drawn, clamped when the side
    drawn is the one of some percentage between 10 and 30. *)
Definition clampedOrRejected (o : QROptions) : Prop :=
  match logoWidth o with
  | None => True
  | Some w => exists p, 10 <= p /\ p <= 30 /\ w == size o * p / 100
  end.

Definition oversizedRequest : QROptions :=
  mkOptions "https://example.com" 300 EcH 50 (Some "logo.png") rounded.

Definition sampleRequest : QROptions :=
  mkOptions "https://example.com" 300 EcH 20 (Some "logo.png") rounded.

Definition side (o : QROptions) : Q := size o * logoSize o / 100.
Definition origin (o : QROptions) : Q := (size o - side o) / 2.
Definition pad (o : QROptions) : Q := side o * (1#10).

Definition regionEq (a b : Region) : Prop :=
  match a, b with
  | Disc x y r, Disc x' y' r' => x == x' /\ y == y' /\ r == r'
  | Box x y w h, Box x' y' w' h' => x == x' /\ y == y' /\ w == w' /\ h == h'
  | _, _ => False
  end.

(** Two layers with the same shape and clipping (up to equality of
    rationals) and the same kind of paint. *)
Definition sameGeometry (a b : Layer) : Prop :=
  regionEq (shape a) (shape b) /\
  Forall2 regionEq (clips a) (clips b) /\
  match paint a, paint b with
  | Colour c, Colour c' => c = c'
  | Bitmap _, Bitmap _ => True
  | QRSymbol t, QRSymbol t' => t = t'
  | _, _ => False
  end.

(** The background shape: a disc of radius [(side + 2 pad) / 2] around
    the centre of the logo, or a square of side [side + 2 pad] around it. *)
Definition backgroundRegion (o : QROptions) : Region :=
  match logoShape o with
  | rounded => Disc (origin o + side o / 2) (origin o + side o / 2) ((side o + 2 * pad o) / 2)
  | square => Box (origin o - pad o) (origin o - pad o) (side o + 2 * pad o) (side o + 2 * pad o)
  end.

(** The region the logo is drawn in. *)
Definition logoRegion (o : QROptions) : Region :=
  match logoShape o with
  | rounded => Disc (origin o + side o / 2) (origin o + side o / 2) (side o / 2)
  | square => Box (origin o) (origin o) (side o) (side o)
  end.

(** Two layers, the background painted first with the theme's light
    colour and unclipped, then the picture, every point of which lies
    strictly inside the background. *)
Definition backgroundThenLogo (o : QROptions) (dark : bool) (picture : string)
    (layers : list Layer) : Prop :=
  exists bg logo,
    layers = [bg; logo] /\
    paint bg = Colour (lightColor dark) /\ clips bg = [] /\
    regionEq (shape bg) (backgroundRegion o) /\
    paint logo = Bitmap picture /\
    (forall px py, shows logo px py <-> inRegion (logoRegion o) px py) /\
    (forall px py, shows logo px py -> coversStrictly bg px py).

End AppVocabulary.

Section FurtherVocabulary.

Import BatchGenerator.

(** The value an item holds in a field. *)
Definition fieldOf (field : Field) (item : BatchItem) : option string :=
  match field with
  | Fid => Some (id item)
  | Ftext => Some (text item)
  | Ffilename => filename item
  end.

(** Whether a character occurs in a string. *)
Fixpoint hasChar (c : ascii) (s : string) : bool :=
  match s with
  | EmptyString => false
  | String d s' => Ascii.eqb d c || hasChar c s'
  end.

(** Free of the characters the import format gives a meaning to: comma,
    double quote and line feed. *)
Definition plainField (s : string) : Prop :=
  hasChar "," s = false /\ hasChar "034" s = false /\ hasChar "010" s = false.

(** A clock that never runs backwards. *)
Definition monotone (now : nat -> N) : Prop :=
  forall a b, a <= b -> (now a <= now b)%N.

Section Pages.

Variable generateQRCodeDataURL : string -> option string.
Variables pdfWidth pdfHeight : Q.

(** The download triggered for an item by the PNG export. *)
Definition pngClick (item : BatchItem) : Effect :=
  Click (orElse (filename item) "qr-code" ++ ".png") (urlOf generateQRCodeDataURL item).

(** The image of an item in the one-per-page export. *)
Definition pageImage (item : BatchItem) : PdfOp :=
  let qrSizeMM := Qmin (pdfWidth * (6#10)) (pdfHeight * (6#10)) in
  AddImage (urlOf generateQRCodeDataURL item)
    ((pdfWidth - qrSizeMM) / 2)%Q ((pdfHeight - qrSizeMM) / 2)%Q qrSizeMM qrSizeMM.

Definition pageCell (i : nat) (item : BatchItem) : list PdfOp :=
  ((if (0 <? i)%nat then [AddPage] else []) ++ [pageImage item])%list.

End Pages.

Definition accepted (generateQRCodeDataURL : string -> option string)
    (items : list BatchItem) : Prop :=
  forall item, In item items -> generateQRCodeDataURL (text item) <> None.

(** The rectangle [x, x + w] x [y, y + h] lies in [x0, x1] x [y0, y1]. *)
Definition within (x y w h x0 y0 x1 y1 : Q) : Prop :=
  (x0 <= x /\ x + w <= x1 /\ y0 <= y /\ y + h <= y1)%Q.

(** An encoder that rejects the payloads which hold [too-long]. *)
Definition pickyEncoder (payload : string) : option string :=
  if JS.includes "too-long" payload then None
  else Some ("data:image/png;base64," ++ payload).

Definition threeItems : list BatchItem :=
  [ mkItem "1" "https://a.com" (Some "a"); mkItem "2" " " None;
    mkItem "3" "https://b.com" None ].

Definition itemsWithRejected : list BatchItem :=
  [ mkItem "1" "https://a.com" (Some "a"); mkItem "2" "too-long" None;
    mkItem "3" "https://b.com" None ].

End FurtherVocabulary.

Section FurtherAppVocabulary.

Import App.


(** The canvas calls of a generation before any logo is drawn. *)
Definition baseCanvas (o : QROptions) (dark : bool) : list CanvasOp :=
  [ Resize (size o) (size o);
    DrawQR (text o) (size o) 2 (errorCorrectionLevel o) (darkColor dark) (lightColor dark) ].



Definition sampleState : AppState :=
  mkState sampleRequest false "" "" false (Some []) 0.

End FurtherAppVocabulary.

Ltac divmod := zify; Z.div_mod_to_equations; lia.

(** Division by the constants of the program, as multiplication. *)
Ltac qnorm :=
  unfold Qdiv in *;
  change (/ 100)%Q with (1 # 100)%Q in *; change (/ 2)%Q with (1 # 2)%Q in *.

(* ================================================================== *)
(** * Properties *)

(** ** Facts about the string primitives *)

Section StringFacts.

Import JS.

Lemma append_nil_r (s : string) : s ++ "" = s.
Proof. induction s as [|c s IH]; simpl; [reflexivity | now rewrite IH]. Qed.

Lemma length_append (a b : string) :
  String.length (a ++ b) = String.length a + String.length b.
Proof. induction a as [|x a IH]; simpl; [reflexivity | now rewrite IH]. Qed.

Lemma prefix_app (p r : string) : prefix p (p ++ r) = true.
Proof.
  induction p as [|c p IH]; simpl; [now destruct r|].
  destruct (ascii_dec c c) as [_|N]; [assumption | now elim N].
Qed.

Lemma prefix_inv (p s : string) : prefix p s = true -> exists r, s = p ++ r.
Proof.
  revert s. induction p as [|c p IH]; intros s H.
  - now exists s.
  - destruct s as [|d s]; simpl in H; [discriminate|].
    destruct (ascii_dec c d) as [->|_]; [|discriminate].
    destruct (IH _ H) as [r ->]. now exists r.
Qed.

Lemma take_app (a b : string) : take (String.length a) (a ++ b) = a.
Proof. induction a as [|x a IH]; simpl; [now destruct b | now rewrite IH]. Qed.

Lemma drop_app (a b : string) : drop (String.length a) (a ++ b) = b.
Proof. induction a as [|x a IH]; simpl; [reflexivity | assumption]. Qed.

Lemma indexOf_unfold (p s : string) :
  indexOf p s =
  if prefix p s then Some 0
  else match s with
       | EmptyString => None
       | String _ s' => option_map S (indexOf p s')
       end.
Proof. destruct s; reflexivity. Qed.

(** [indexOf] returns an occurrence ... *)
Lemma indexOf_sound (p s : string) (n : nat) :
  indexOf p s = Some n ->
  exists a b, s = a ++ p ++ b /\ String.length a = n.
Proof.
  revert n. induction s as [|c s IH]; intros n H; rewrite indexOf_unfold in H.
  - destruct (prefix p "") eqn:E; [|discriminate].
    injection H as <-. destruct (prefix_inv _ _ E) as [r Hr].
    exists "", r. now split.
  - destruct (prefix p (String c s)) eqn:E.
    + injection H as <-. destruct (prefix_inv _ _ E) as [r Hr].
      exists "", r. now split.
    + destruct (indexOf p s) as [m|] eqn:Em; [|discriminate].
      injection H as <-. destruct (IH m eq_refl) as (a & b & -> & Hl).
      exists (String c a), b. simpl. now rewrite Hl.
Qed.

(** ... and finds one whenever there is one, never later than it. *)
Lemma indexOf_complete (p a b : string) :
  exists n, indexOf p (a ++ p ++ b) = Some n /\ n <= String.length a.
Proof.
  induction a as [|c a IH]; rewrite indexOf_unfold.
  - exists 0. simpl (_ ++ _). rewrite prefix_app. split; auto.
  - simpl (_ ++ _).
    destruct (prefix p (String c (a ++ p ++ b))).
    + exists 0. split; [reflexivity | simpl; lia].
    + destruct IH as (n & -> & Hn). exists (S n). split; [reflexivity | simpl; lia].
Qed.

Lemma includes_iff (p s : string) :
  includes p s = true <-> exists a b, s = a ++ p ++ b.
Proof.
  unfold includes. split.
  - destruct (indexOf p s) as [n|] eqn:E; [|discriminate].
    intros _. destruct (indexOf_sound _ _ _ E) as (a & b & H & _). now exists a, b.
  - intros (a & b & ->). destruct (indexOf_complete p a b) as (n & -> & _). reflexivity.
Qed.

Lemma toLowerCase_app (a b : string) :
  toLowerCase (a ++ b) = toLowerCase a ++ toLowerCase b.
Proof. induction a as [|x a IH]; simpl; [reflexivity | now rewrite IH]. Qed.

Lemma toLowerCase_split (s x y : string) :
  toLowerCase s = x ++ y ->
  exists a b, s = a ++ b /\ toLowerCase a = x /\ toLowerCase b = y.
Proof.
  revert s. induction x as [|c x IH]; intros s H.
  - exists "", s. auto.
  - destruct s as [|d s]; simpl in H; [discriminate|].
    injection H as Hc H. destruct (IH _ H) as (a & b & -> & Ha & Hb).
    exists (String d a), b. simpl. now rewrite Hc, Ha.
Qed.

Lemma includes_toLowerCase (token line : string) :
  includes token (toLowerCase line) = true <-> containsIgnoringCase line token.
Proof.
  rewrite includes_iff. split.
  - intros (x & y & H).
    destruct (toLowerCase_split _ _ _ H) as (a & r & -> & Ha & Hr).
    destruct (toLowerCase_split _ _ _ Hr) as (w & b & -> & Hw & Hb).
    now exists a, w, b.
  - intros (a & w & b & -> & Hw).
    exists (toLowerCase a), (toLowerCase b).
    now rewrite !toLowerCase_app, Hw.
Qed.

Lemma trimStart_blank (s : string) : trimStart s = "" <-> blank s.
Proof.
  induction s as [|c s IH]; simpl; [tauto|].
  destruct (isWhiteSpace c); [rewrite IH; tauto|].
  split; [discriminate | intros [H _]; discriminate].
Qed.

Lemma trimStart_head (s : string) :
  trimStart s = "" \/ exists c r, trimStart s = String c r /\ isWhiteSpace c = false.
Proof.
  induction s as [|c s IH]; simpl; [now left|].
  destruct (isWhiteSpace c) eqn:E; [assumption|]. right. now exists c, s.
Qed.

Lemma trimEnd_nonblank_head (c : ascii) (r : string) :
  isWhiteSpace c = false -> trimEnd (String c r) <> "".
Proof. intros H. simpl. rewrite H. now destruct (trimEnd r). Qed.

Lemma trim_blank (s : string) : truthy (trim s) = false <-> blank s.
Proof.
  rewrite <- trimStart_blank. unfold trim.
  destruct (trimStart_head s) as [E | (c & r & E & Hc)]; rewrite E.
  - simpl. tauto.
  - pose proof (trimEnd_nonblank_head c r Hc) as N.
    destruct (trimEnd (String c r)); [now elim N|].
    simpl. split; discriminate.
Qed.

End StringFacts.

(* ================================================================== *)
(** ** CSV import *)

Section ImportFacts.

Import BatchGenerator.

Lemma isHeader_iff (line : string) :
  isHeader line = true <->
  containsIgnoringCase line "text" \/ containsIgnoringCase line "url".
Proof.
  unfold isHeader. rewrite orb_true_iff, !includes_toLowerCase. tauto.
Qed.

Lemma newItems_payloads_from (now : nat -> N) (data : list string) (i : nat) :
  map text (filter (fun item => JS.truthy (text item)) (mapi_from (lineToItem now) i data))
  = filter JS.truthy (map payloadOf data).
Proof.
  revert i. induction data as [|line data IH]; intro i; simpl; [reflexivity|].
  fold (payloadOf line).
  destruct (JS.truthy (payloadOf line)); simpl; now rewrite IH.
Qed.

Lemma newItems_payloads (now : nat -> N) (data : list string) :
  map text (newItems now data) = filter JS.truthy (map payloadOf data).
Proof. apply newItems_payloads_from. Qed.

(** C7. Importing the text
    "text,filename\nhttps://a.com,site-a\ntel:+1,phone" yields exactly two
    items, (https://a.com, site-a) then (tel:+1, phone), the first line
    being left out as a header; and in general the first line is skipped if
    and only if it contains "text" or "url" ignoring case. *)
Theorem csv_import_scenario_and_header_rule :
  (forall (now : nat -> N) (old : list BatchItem),
     exists items,
       handleCSVUpload now (Some importScenario) old = Done items /\
       map (fun item => (text item, filename item)) items
       = [ ("https://a.com", Some "site-a"); ("tel:+1", Some "phone") ]) /\
  (forall (first : string) (rest : list string),
     (containsIgnoringCase first "text" \/ containsIgnoringCase first "url" ->
      dataLines (first :: rest) = Some rest) /\
     (~ (containsIgnoringCase first "text" \/ containsIgnoringCase first "url") ->
      dataLines (first :: rest) = Some (first :: rest))).
Proof.
  split.
  - intros now old. eexists. split; reflexivity.
  - intros first rest. rewrite <- isHeader_iff. unfold dataLines.
    destruct (isHeader first); split; intro H; try reflexivity.
    + now elim H.
    + discriminate.
Qed.

Lemma csv_import_scenario_and_header_rule_witness :
  containsIgnoringCase "Text,File" "text" /\
  dataLines ["Text,File"; "a,b"] = Some ["a,b"].
Proof.
  assert (C : containsIgnoringCase "Text,File" "text").
  { exists "", "Text", ",File". split; reflexivity. }
  split; [exact C|].
  exact (proj1 (proj2 csv_import_scenario_and_header_rule "Text,File" ["a,b"]) (or_introl C)).
Defined.

(** C9. A successful import replaces the whole collection: the new
    collection is exactly what was parsed from the file (every item comes
    from a data line, payloads in file order), whatever the collection held
    before; no earlier item is kept. *)
Theorem import_replaces_collection (now : nat -> N) (csv : string)
    (old : list BatchItem) (first : string) (rest : list string) :
  csvLines csv = first :: rest ->
  let data := if isHeader first then rest else first :: rest in
  handleCSVUpload now (Some csv) old = Done (newItems now data) /\
  map text (newItems now data) = filter JS.truthy (map payloadOf data) /\
  (forall old', handleCSVUpload now (Some csv) old' = handleCSVUpload now (Some csv) old) /\
  (forall item, In item (newItems now data) ->
     exists i line, nth_error data i = Some line /\ item = lineToItem now i line).
Proof.
  intros Hl data. unfold handleCSVUpload. rewrite Hl. simpl dataLines. fold data.
  repeat split.
  - apply newItems_payloads.
  - intros item Hin. unfold newItems, mapi in Hin.
    apply filter_In in Hin. destruct Hin as [Hin _].
    assert (G : forall k l, In item (mapi_from (lineToItem now) k l) ->
                exists j line, nth_error l j = Some line /\ item = lineToItem now (k + j) line).
    { intros k l. revert k. induction l as [|x l IH]; intros k H; simpl in H; [contradiction|].
      destruct H as [<- | H].
      - exists 0, x. split; [reflexivity | now rewrite Nat.add_0_r].
      - destruct (IH _ H) as (j & line & Hj & ->).
        exists (S j), line. split; [assumption | f_equal; lia]. }
    destruct (G _ _ Hin) as (j & line & Hj & ->). now exists j, line.
Qed.

Lemma import_replaces_collection_witness :
  exists items,
    handleCSVUpload (fun _ => 1000%N) (Some importScenario) initialItems = Done items /\
    map text items = ["https://a.com"; "tel:+1"].
Proof.
  destruct (import_replaces_collection (fun _ => 1000%N) importScenario initialItems
              "text,filename" ["https://a.com,site-a"; "tel:+1,phone"] eq_refl)
    as (H & _).
  eexists. split; [exact H | reflexivity].
Defined.

(** C10. Header detection works by substring: in a header-less file
    whose first payload is a URL that happens to contain "url", the first
    line is taken for a header and its item is missing from the imported
    collection. *)
Theorem header_detection_drops_first_data_line :
  exists first rest,
    csvLines headerlessImport = first :: rest /\
    payloadOf first = "https://example.com/url-shortener" /\
    JS.truthy (payloadOf first) = true /\
    forall (now : nat -> N) (old : list BatchItem),
      exists items,
        handleCSVUpload now (Some headerlessImport) old = Done items /\
        map text items = ["https://b.com"] /\
        ~ In (payloadOf first) (map text items).
Proof.
  exists "https://example.com/url-shortener,short", ["https://b.com,b"].
  repeat split.
  intros now old. eexists. split; [reflexivity|]. split; [reflexivity|].
  simpl. intros [H | []]. discriminate H.
Qed.

End ImportFacts.

(* ================================================================== *)
(** ** Identifiers of the batch collection *)

Section IdFacts.

Import BatchGenerator.

Lemma numToString_inj (m n : N) : JS.numToString m = JS.numToString n -> m = n.
Proof.
  unfold JS.numToString. intro H.
  apply DecimalN.Unsigned.to_uint_inj.
  assert (Nn : forall k, N.to_uint k <> Decimal.Nil).
  { intros [|p]; simpl; [discriminate | apply DecimalPos.Unsigned.to_uint_nonnil]. }
  pose proof (NilZero.usu _ (Nn m)) as Hm. pose proof (NilZero.usu _ (Nn n)) as Hn.
  rewrite H in Hm. rewrite Hm in Hn. now injection Hn.
Qed.

Lemma removeBatchItem_distinct (i : string) (items : list BatchItem) :
  idsDistinct items -> idsDistinct (removeBatchItem i items).
Proof.
  unfold idsDistinct, removeBatchItem. induction items as [|x l IH]; simpl; intro H.
  - constructor.
  - inversion H as [|? ? Hx Hl]; subst.
    destruct (negb (id x =? i)); simpl; auto.
    constructor; auto. intro Hin. apply Hx.
    apply in_map_iff in Hin. destruct Hin as (y & Hy & Hin).
    apply filter_In in Hin. apply in_map_iff. exists y. tauto.
Qed.

Lemma updateBatchItem_ids (i : string) (field : Field) (value : string)
    (items : list BatchItem) :
  field <> Fid -> map id (updateBatchItem i field value items) = map id items.
Proof.
  intro Hf. unfold updateBatchItem. rewrite map_map. apply map_ext.
  intro x. destruct (id x =? i); [|reflexivity]. now destruct field.
Qed.

Lemma updateBatchItem_distinct (i : string) (field : Field) (value : string)
    (items : list BatchItem) :
  field <> Fid -> idsDistinct items -> idsDistinct (updateBatchItem i field value items).
Proof. intros Hf H. unfold idsDistinct. now rewrite updateBatchItem_ids. Qed.

Lemma mapi_from_ids_bound (now : nat -> N) (k : nat) (data : list string) (s : string) :
  (forall a b, a <= b -> (now a <= now b)%N) ->
  In s (map id (mapi_from (lineToItem now) k data)) ->
  exists j, k <= j /\ s = JS.numToString (now j + N.of_nat j).
Proof.
  intro Hmono. revert k. induction data as [|x l IH]; intros k H; simpl in H; [contradiction|].
  destruct H as [<- | H].
  - exists k. split; [lia | reflexivity].
  - destruct (IH _ H) as (j & Hj & ->). exists j. split; [lia | reflexivity].
Qed.

(** An import gives distinct identifiers as long as the clock does not
    run backwards while the lines are converted. *)
Lemma import_distinct (now : nat -> N) (data : list string) :
  (forall a b, a <= b -> (now a <= now b)%N) ->
  idsDistinct (newItems now data).
Proof.
  intro Hmono. unfold idsDistinct, newItems, mapi.
  assert (G : forall k, NoDup (map id (mapi_from (lineToItem now) k data))).
  { induction data as [|x l IH]; intro k; simpl; constructor; auto.
    intro Hin. destruct (mapi_from_ids_bound now (S k) l _ Hmono Hin) as (j & Hj & E).
    apply numToString_inj in E. specialize (Hmono k j). lia. }
  generalize (G 0). generalize (mapi_from (lineToItem now) 0 data).
  induction l as [|x l IH]; simpl; intro H; [constructor|].
  inversion H as [|? ? Hx Hl]; subst.
  destruct (JS.truthy (text x)); simpl; auto.
  constructor; auto. intro Hin. apply Hx.
  apply in_map_iff in Hin. destruct Hin as (y & Hy & Hin).
  apply filter_In in Hin. apply in_map_iff. exists y. tauto.
Qed.

(** Adding keeps the identifiers distinct only when the clock reading is
    not already in use. *)
Lemma addBatchItem_distinct (now : N) (items : list BatchItem) :
  idsDistinct items -> ~ In (JS.numToString now) (map id items) ->
  idsDistinct (addBatchItem now items).
Proof.
  unfold idsDistinct, addBatchItem. intros H Hn. rewrite map_app. simpl.
  apply NoDup_app; [assumption | repeat constructor; intros [] |].
  intros a Ha [<- | []]. contradiction.
Qed.

Lemma addBatchItem_collision (now : N) (items : list BatchItem) :
  In (JS.numToString now) (map id items) -> ~ idsDistinct (addBatchItem now items).
Proof.
  unfold idsDistinct, addBatchItem. intros Hin H. rewrite map_app in H.
  apply NoDup_remove_2 in H. apply H. rewrite app_nil_r. exact Hin.
Qed.

Lemma mapi_from_id_at (now : nat -> N) (data : list string) :
  forall k j line,
    nth_error data j = Some line ->
    JS.truthy (payloadOf line) = true ->
    In (JS.numToString (now (k + j) + N.of_nat (k + j)))
       (map id (filter (fun item => JS.truthy (text item)) (mapi_from (lineToItem now) k data))).
Proof.
  induction data as [|x l IH]; intros k j line Hj Hp; [now destruct j|].
  cbn [mapi_from filter]. destruct j as [|j]; simpl in Hj.
  - injection Hj as ->. change (text (lineToItem now k line)) with (payloadOf line).
    rewrite Hp, Nat.add_0_r. now left.
  - replace (k + S j) with (S k + j) by lia.
    destruct (JS.truthy (text (lineToItem now k x))); [right|]; now apply (IH (S k) j line).
Qed.

(** C8. Adding an item takes its identifier from the clock alone.  After
    the import of a 1000-line file at clock reading 1700000000000, whose
    items are numbered from that reading upwards and are pairwise distinct,
    an item added 0.9 seconds later receives an identifier that is already
    in the collection: the identifiers are no longer pairwise distinct. *)
Theorem addBatchItem_reuses_identifier :
  let start := 1700000000000%N in
  let imported := newItems (fun _ => start) longImportLines in
  handleCSVUpload (fun _ => start) (Some longImport) initialItems = Done imported /\
  idsDistinct imported /\
  In (JS.numToString (start + 900)) (map id imported) /\
  ~ idsDistinct (addBatchItem (start + 900) imported).
Proof.
  intros start imported.
  assert (Hin : In (JS.numToString (start + 900)) (map id imported)).
  { exact (mapi_from_id_at (fun _ => start) longImportLines 0 900
             "https://example.com/p/901,page-901" eq_refl eq_refl). }
  split; [vm_compute; reflexivity|]. split; [|split].
  - apply import_distinct. intros; lia.
  - exact Hin.
  - apply addBatchItem_collision, Hin.
Qed.

End IdFacts.

(* ================================================================== *)
(** ** Grid pagination *)

Section GridFacts.

Import BatchGenerator.

Variable generateQRCodeDataURL : string -> option string.
Variables pdfWidth pdfHeight : Q.

Local Abbreviation image := (gridImage generateQRCodeDataURL pdfWidth pdfHeight).
Local Abbreviation cell := (gridCell generateQRCodeDataURL pdfWidth pdfHeight).

Lemma breakAt_iff (i : nat) : breakAt i = true <-> exists k, i = 6 * S k.
Proof.
  unfold breakAt. rewrite andb_true_iff, Nat.ltb_lt, Nat.eqb_eq. split.
  - intros [Hp Hm]. exists (i / 6 - 1). divmod.
  - intros [k ->]. split; [lia | divmod].
Qed.

Lemma page_advances (i : nat) : ((i - 1) / 6 <? i / 6)%nat = breakAt i.
Proof.
  unfold breakAt.
  destruct (Nat.ltb_spec ((i - 1) / 6) (i / 6)) as [H|H];
    destruct (Nat.ltb_spec 0 i) as [P|P];
    destruct (Nat.eqb_spec (i mod 6) 0) as [E|E]; simpl; try reflexivity; exfalso; divmod.
Qed.

Lemma page_advances_not (i : nat) : breakAt i = false -> (i - 1) / 6 = i / 6.
Proof.
  unfold breakAt. intro H. apply andb_false_iff in H.
  rewrite Nat.ltb_ge, Nat.eqb_neq in H. divmod.
Qed.

Lemma col_of_cell (i : nat) : (i mod 6) mod 2 = i mod 2.
Proof. divmod. Qed.

Lemma layoutOf_app (a b : list PdfOp) : layoutOf (a ++ b) = (layoutOf a ++ layoutOf b)%list.
Proof. apply filter_app. Qed.

(** The grid loop ends and issues, for each item in turn, a page break
    exactly at the break iterations followed by the item's image. *)
Lemma gridLoop_layout (items : list BatchItem) :
  forall (i currentPage : nat) (doc : list PdfOp),
    currentPage = (i - 1) / 6 ->
    (forall item, In item items -> generateQRCodeDataURL (text item) <> None) ->
    exists doc',
      gridLoop generateQRCodeDataURL pdfWidth pdfHeight i items currentPage doc = Some doc' /\
      layoutOf doc' = (layoutOf doc ++ List.concat (mapi_from cell i items))%list.
Proof.
  induction items as [|item rest IH]; intros i cp doc Hcp Hgen.
  - exists doc. split; [reflexivity | simpl; now rewrite app_nil_r].
  - cbn [gridLoop mapi_from List.concat].
    change (cols * rows) with 6. change cols with 2.
    rewrite Hcp, page_advances, col_of_cell.
    assert (Hitem : generateQRCodeDataURL (text item) <> None) by (apply Hgen; now left).
    assert (Hrest : forall x, In x rest -> generateQRCodeDataURL (text x) <> None)
      by (intros x Hx; apply Hgen; now right).
    unfold gridCell at 1, gridImage, urlOf.
    destruct (generateQRCodeDataURL (text item)) as [dataUrl|]; [|now elim Hitem].
    destruct (breakAt i) eqn:Hb.
    + assert (Hn : i / 6 = (S i - 1) / 6) by (f_equal; lia).
      match goal with
      | |- exists d, gridLoop _ _ _ _ _ _ ?D = _ /\ _ =>
          destruct (IH (S i) (i / 6) D Hn Hrest) as (doc' & Hrun & Hlay)
      end.
      exists doc'. split; [exact Hrun|].
      rewrite Hlay, !layoutOf_app. simpl. now rewrite <- !app_assoc.
    + assert (Hn : (i - 1) / 6 = (S i - 1) / 6).
      { apply page_advances_not in Hb. rewrite Hb. f_equal. lia. }
      match goal with
      | |- exists d, gridLoop _ _ _ _ _ _ ?D = _ /\ _ =>
          destruct (IH (S i) ((i - 1) / 6) D Hn Hrest) as (doc' & Hrun & Hlay)
      end.
      exists doc'. split; [exact Hrun|].
      rewrite Hlay, !layoutOf_app. simpl. now rewrite <- !app_assoc.
Qed.

Lemma placedFrom_layoutOf (doc : list PdfOp) :
  forall p, placedFrom p doc = placedFrom p (layoutOf doc).
Proof.
  induction doc as [|op doc IH]; intro p; [reflexivity|].
  destruct op; simpl; auto. now rewrite IH.
Qed.

Lemma placedFrom_image (p i : nat) (item : BatchItem) (rest : list PdfOp) :
  placedFrom p (image i item :: rest) = (p, image i item) :: placedFrom p rest.
Proof. reflexivity. Qed.

Lemma placedFrom_break (p : nat) (rest : list PdfOp) :
  placedFrom p (AddPage :: rest) = placedFrom (S p) rest.
Proof. reflexivity. Qed.

Lemma placedFrom_cells (items : list BatchItem) :
  forall i,
    placedFrom ((i - 1) / 6) (List.concat (mapi_from cell i items))
    = mapi_from (fun i item => (i / 6, image i item)) i items.
Proof.
  induction items as [|item rest IH]; intro i; [reflexivity|].
  cbn [mapi_from List.concat]. unfold gridCell at 1.
  assert (Hnext : i / 6 = (S i - 1) / 6) by (f_equal; lia).
  destruct (breakAt i) eqn:Hb; cbn [app]; rewrite ?placedFrom_break, placedFrom_image.
  - assert (E : S ((i - 1) / 6) = i / 6).
    { rewrite <- page_advances in Hb. apply Nat.ltb_lt in Hb.
      assert ((i - 1) / 6 <= i / 6 <= S ((i - 1) / 6)) by divmod. lia. }
    rewrite E. f_equal. rewrite Hnext at 1. apply IH.
  - rewrite (page_advances_not i Hb). f_equal. rewrite Hnext at 1. apply IH.
Qed.

Lemma breaks_of_cells (items : list BatchItem) :
  forall i,
    List.length (filter isAddPage (List.concat (mapi_from cell i items)))
    = List.length (filter breakAt (seq i (List.length items))).
Proof.
  induction items as [|item rest IH]; intro i; [reflexivity|].
  cbn [mapi_from List.concat List.length seq filter]. unfold gridCell at 1.
  rewrite filter_app, length_app, IH.
  destruct (breakAt i); reflexivity.
Qed.

Lemma filter_isAddPage_layoutOf (doc : list PdfOp) :
  filter isAddPage (layoutOf doc) = filter isAddPage doc.
Proof.
  induction doc as [|op doc IH]; [reflexivity|].
  destruct op; simpl; auto. now rewrite IH.
Qed.

Lemma on_page_count {B : Type} (f : nat -> nat) (g : nat -> BatchItem -> B) (p : nat)
    (items : list BatchItem) :
  forall i,
    List.length (filter (fun e => (fst e =? p)%nat) (mapi_from (fun i item => (f i, g i item)) i items))
    = List.length (filter (fun i => (f i =? p)%nat) (seq i (List.length items))).
Proof.
  induction items as [|item rest IH]; intro i; [reflexivity|].
  cbn [mapi_from List.length seq filter fst].
  destruct (f i =? p)%nat; simpl; now rewrite IH.
Qed.

Lemma some_valid (f : BatchItem -> bool) (l : list BatchItem) :
  filter f l <> [] ->
  ((List.length l =? 0)%nat || forallb (fun x => negb (f x)) l) = false.
Proof.
  induction l as [|x l IH]; simpl; intro H; [now elim H|].
  destruct (f x); simpl; [reflexivity|]. apply IH in H.
  apply orb_false_iff in H. tauto.
Qed.

(** C3. Grid export with 2 columns and 3 rows: the export completes and
    saves one document in which the valid item at index [i] (0-based, in
    collection order) is drawn on page [i / 6] at column [i mod 2] and row
    [(i mod 6) / 2]; a page is added exactly before the items at indices
    6, 12, 18, ...; with 13 valid items the document has 3 pages and the
    third holds one image. *)
Theorem grid_pagination (splitTextToSize : string -> Q -> list string) (now : N)
    (batchItems : list BatchItem) :
  let validItems := filter nonBlank batchItems in
  validItems <> [] ->
  (forall item, In item validItems -> generateQRCodeDataURL (text item) <> None) ->
  exists doc,
    downloadBatch generateQRCodeDataURL pdfWidth pdfHeight splitTextToSize pdf_grid now batchItems
    = Completed [Saved ("qrbrandr-grid-" ++ JS.numToString now ++ ".pdf") doc] /\
    placed doc = mapi (fun i item => (i / 6, image i item)) validItems /\
    layoutOf doc
    = List.concat (mapi (fun i item =>
                           (if breakAt i then [AddPage] else []) ++ [image i item])%list
                        validItems) /\
    (forall i, breakAt i = true <-> exists k, i = 6 * S k) /\
    (List.length validItems = 13 ->
     pageCount doc = 3 /\ List.length (imagesOnPage 2 doc) = 1).
Proof.
  intros validItems Hne Hgen.
  destruct (gridLoop_layout validItems 0 0 [] eq_refl Hgen) as (doc & Hrun & Hlay).
  simpl in Hlay.
  assert (Hplaced : placed doc = mapi (fun i item => (i / 6, image i item)) validItems).
  { unfold placed. rewrite placedFrom_layoutOf, Hlay. apply (placedFrom_cells validItems 0). }
  exists doc. split; [|split; [|split; [|split]]].
  - pose proof (some_valid nonBlank batchItems Hne) as Hc. unfold nonBlank in Hc.
    unfold downloadBatch. rewrite Hc.
    change (filter (fun item => JS.truthy (JS.trim (text item))) batchItems) with validItems.
    now rewrite Hrun.
  - exact Hplaced.
  - exact Hlay.
  - apply breakAt_iff.
  - intro H13. split.
    + unfold pageCount. rewrite <- filter_isAddPage_layoutOf, Hlay.
      rewrite (breaks_of_cells validItems 0), H13. reflexivity.
    + unfold imagesOnPage. rewrite length_map, Hplaced. unfold mapi.
      rewrite (on_page_count (fun i => i / 6) image 2 validItems 0), H13. reflexivity.
Qed.

End GridFacts.

Lemma grid_pagination_witness :
  exists doc,
    BatchGenerator.downloadBatch sampleEncoder 210 297 (fun s _ => [s])
      BatchGenerator.pdf_grid 1700000000000 fourteenItems
    = BatchGenerator.Completed [BatchGenerator.Saved "qrbrandr-grid-1700000000000.pdf" doc] /\
    BatchGenerator.pageCount doc = 3 /\
    List.length (BatchGenerator.imagesOnPage 2 doc) = 1.
Proof.
  assert (Hne : filter BatchGenerator.nonBlank fourteenItems <> []).
  { vm_compute. discriminate. }
  assert (Hgen : forall item, In item (filter BatchGenerator.nonBlank fourteenItems) ->
                   sampleEncoder (BatchGenerator.text item) <> None).
  { intros item _. discriminate. }
  destruct (grid_pagination sampleEncoder 210 297 (fun s _ => [s]) 1700000000000
              fourteenItems Hne Hgen) as (doc & Hrun & _ & _ & _ & H13).
  exists doc. split; [exact Hrun|]. apply H13. reflexivity.
Defined.

(* ================================================================== *)
(** ** Blank payloads *)

Section BlankFacts.

Import BatchGenerator.

Variable generateQRCodeDataURL : string -> option string.
Variables pdfWidth pdfHeight : Q.
Variable splitTextToSize : string -> Q -> list string.

Let export := downloadBatch generateQRCodeDataURL pdfWidth pdfHeight splitTextToSize.

Lemma clicks_app (a b : list Effect) : clicks (a ++ b) = clicks a + clicks b.
Proof. unfold clicks. now rewrite map_app, list_sum_app. Qed.

Lemma images_app (a b : list PdfOp) : images (a ++ b) = images a + images b.
Proof. unfold images. now rewrite filter_app, length_app. Qed.

Lemma nonBlank_false_iff (item : BatchItem) : nonBlank item = false <-> blank (text item).
Proof. apply trim_blank. Qed.

Lemma pngLoop_count (items : list BatchItem) :
  forall done,
    clicks (delivered (pngLoop generateQRCodeDataURL items done))
    <= clicks done + List.length items /\
    (forall es, pngLoop generateQRCodeDataURL items done = Completed es ->
                clicks es = clicks done + List.length items).
Proof.
  induction items as [|item rest IH]; intro done; cbn [pngLoop List.length].
  - split; [simpl; lia|]. intros es [= <-]. lia.
  - destruct (generateQRCodeDataURL (text item)) as [dataUrl|].
    + set (click := Click (orElse (filename item) "qr-code" ++ ".png") dataUrl).
      destruct (IH (done ++ [click])%list) as [Hle Heq].
      assert (E : clicks (done ++ [click]) = clicks done + 1)
        by (rewrite clicks_app; reflexivity).
      rewrite E in Hle, Heq. split; [lia|]. intros es Hes. rewrite (Heq es Hes). lia.
    + split; [simpl; lia | discriminate].
Qed.

Lemma pagesLoop_count (items : list BatchItem) :
  forall i doc doc',
    pagesLoop generateQRCodeDataURL pdfWidth pdfHeight splitTextToSize i items doc = Some doc' ->
    images doc' = images doc + List.length items.
Proof.
  induction items as [|item rest IH]; intros i doc doc' H; cbn [pagesLoop] in H.
  - injection H as <-. simpl. lia.
  - destruct (generateQRCodeDataURL (text item)) as [dataUrl|]; [|discriminate].
    apply IH in H. rewrite H, images_app.
    destruct (0 <? i)%nat; rewrite ?images_app; unfold images; simpl; lia.
Qed.

Lemma gridLoop_count (items : list BatchItem) :
  forall i currentPage doc doc',
    gridLoop generateQRCodeDataURL pdfWidth pdfHeight i items currentPage doc = Some doc' ->
    images doc' = images doc + List.length items.
Proof.
  induction items as [|item rest IH]; intros i cp doc doc' H; cbn [gridLoop] in H.
  - injection H as <-. simpl. lia.
  - destruct (cp <? i / (cols * rows))%nat;
      (destruct (generateQRCodeDataURL (text item)) as [dataUrl|]; [|discriminate]);
      apply IH in H; rewrite H, ?images_app; unfold images; simpl; lia.
Qed.

(** Whatever the format, at most one image per valid item is delivered,
    and exactly one each when the export completes. *)
Lemma export_count (format : BatchExportFormat) (now : N) (items : list BatchItem) :
  imagesDelivered (export format now items) <= List.length (filter nonBlank items) /\
  (forall es, export format now items = Completed es ->
              imagesDelivered (Completed es) = List.length (filter nonBlank items)).
Proof.
  unfold export, downloadBatch, imagesDelivered.
  change (filter (fun item => JS.truthy (JS.trim (text item))) items) with (filter nonBlank items).
  destruct ((List.length items =? 0)%nat || _); [split; [simpl; lia | discriminate]|].
  destruct format.
  - destruct (pngLoop_count (filter nonBlank items) []) as [Hle Heq].
    fold (clicks (delivered (pngLoop generateQRCodeDataURL (filter nonBlank items) []))).
    split; [exact Hle|]. intros es Hes. exact (Heq es Hes).
  - destruct (pagesLoop _ _ _ _ 0 (filter nonBlank items) []) as [doc|] eqn:E.
    + apply pagesLoop_count in E. simpl. fold (images doc). rewrite E.
      split; [simpl; lia|]. intros es [= <-]. simpl. fold (images doc). rewrite E. simpl. lia.
    + split; [simpl; lia | discriminate].
  - destruct (gridLoop _ _ _ 0 (filter nonBlank items) 0 []) as [doc|] eqn:E.
    + apply gridLoop_count in E. simpl. fold (images doc). rewrite E.
      split; [simpl; lia|]. intros es [= <-]. simpl. fold (images doc). rewrite E. simpl. lia.
    + split; [simpl; lia | discriminate].
Qed.

(** A blank item leaves no trace in the outcome of an export. *)
Lemma export_ignores_blank (format : BatchExportFormat) (now : N)
    (before after : list BatchItem) (item : BatchItem) :
  blank (text item) ->
  export format now (before ++ item :: after) = export format now (before ++ after).
Proof.
  intro Hb. apply nonBlank_false_iff in Hb. unfold nonBlank in Hb.
  unfold export, downloadBatch.
  rewrite !filter_app, !forallb_app. cbn [filter forallb]. rewrite Hb. cbn [negb andb].
  destruct (forallb (fun x => negb (JS.truthy (JS.trim (text x)))) before) eqn:E1;
    destruct (forallb (fun x => negb (JS.truthy (JS.trim (text x)))) after) eqn:E2;
    cbn [andb]; rewrite ?orb_true_r; try reflexivity.
  - destruct after as [|y after]; [discriminate|].
    rewrite !length_app. cbn [List.length].
    now replace (List.length before + S (S (List.length after)) =? 0)%nat with false
      by (symmetry; apply Nat.eqb_neq; lia);
    replace (List.length before + S (List.length after) =? 0)%nat with false
      by (symmetry; apply Nat.eqb_neq; lia).
  - destruct before as [|y before]; [discriminate|]. reflexivity.
  - destruct before as [|y before]; [discriminate|]. reflexivity.
Qed.

End BlankFacts.

Section BlankClaim.

Import BatchGenerator.

Variable generateQRCodeDataURL : string -> option string.
Variables pdfWidth pdfHeight : Q.
Variable splitTextToSize : string -> Q -> list string.
Variable encodable : string -> App.ErrorCorrectionLevel -> bool.
Variable toSvgString : string -> Q -> App.ErrorCorrectionLevel -> string -> string -> string.
Variable toDataURL : list App.CanvasOp -> string.
Variable loadImage : App.File -> option App.Image.

(** C6. A blank payload is passed over in silence.  Single generation
    returns with the whole state as it was: no new artifact, no error
    logged.  In a batch export a blank item changes nothing in the outcome,
    the number of images delivered never exceeds the number of the other
    non-blank items, and equals it when the export completes. *)
Theorem blank_payload_is_skipped (st : App.AppState) (format : BatchExportFormat) (now : N)
    (before after : list BatchItem) (item : BatchItem) :
  blank (App.text (App.options st)) ->
  blank (text item) ->
  let export := downloadBatch generateQRCodeDataURL pdfWidth pdfHeight splitTextToSize in
  App.generateQRCode encodable toSvgString toDataURL loadImage st = st /\
  export format now (before ++ item :: after)%list = export format now (before ++ after)%list /\
  imagesDelivered (export format now (before ++ item :: after)%list)
  <= List.length (filter nonBlank (before ++ after)%list) /\
  (forall es, export format now (before ++ item :: after)%list = Completed es ->
              imagesDelivered (Completed es) = List.length (filter nonBlank (before ++ after)%list)).
Proof.
  intros Hst Hitem export.
  assert (Hvalid : filter nonBlank (before ++ item :: after)%list = filter nonBlank (before ++ after)%list).
  { rewrite !filter_app. cbn [filter].
    now rewrite (proj2 (nonBlank_false_iff item) Hitem). }
  split; [|split].
  - unfold App.generateQRCode. now rewrite (proj2 (trim_blank _) Hst).
  - apply export_ignores_blank, Hitem.
  - rewrite <- Hvalid. apply export_count.
Qed.

End BlankClaim.

Lemma blank_payload_is_skipped_witness :
  blank "   " /\
  App.generateQRCode (fun _ _ => true) (fun _ _ _ _ _ => "<svg></svg>") (fun _ => "data:")
    (fun _ => None) blankRequest = blankRequest /\
  BatchGenerator.imagesDelivered
    (BatchGenerator.downloadBatch sampleEncoder 210 297 (fun s _ => [s]) BatchGenerator.png_zip 0
       ([BatchGenerator.mkItem "1" "a" None]
        ++ BatchGenerator.mkItem "2" "   " None :: [BatchGenerator.mkItem "3" "b" None])%list) = 2.
Proof.
  assert (B : blank "   ") by (simpl; tauto).
  split; [exact B|].
  destruct (blank_payload_is_skipped sampleEncoder 210 297 (fun s _ => [s])
              (fun _ _ => true) (fun _ _ _ _ _ => "<svg></svg>") (fun _ => "data:")
              (fun _ => None) blankRequest BatchGenerator.png_zip 0%N
              [BatchGenerator.mkItem "1" "a" None] [BatchGenerator.mkItem "3" "b" None]
              (BatchGenerator.mkItem "2" "   " None) B B) as (H1 & _ & _ & H4).
  split; [exact H1|]. exact (H4 _ eq_refl).
Defined.

(* ================================================================== *)
(** ** Logo placement *)

Section PlacementFacts.

Import App.
Local Open Scope Q_scope.

(** C2 as stated fails here: a logo size of 50 percent on a 300 pixel
    code is drawn 150 pixels wide, neither rejected nor brought back into
    10..30. *)
Lemma oversized_logo_is_drawn_as_given :
  ~ (10 <= logoSize oversizedRequest /\ logoSize oversizedRequest <= 30) /\
  logoWidth oversizedRequest = Some (300 * 50 / 100) /\
  ~ clampedOrRejected oversizedRequest.
Proof.
  split; [|split].
  - simpl. intros [_ H]. lra.
  - reflexivity.
  - unfold clampedOrRejected.
    change (logoWidth oversizedRequest) with (Some (300 * 50 / 100)).
    change (size oversizedRequest) with 300.
    intros (p & H1 & H2 & H3). qnorm. lra.
Qed.

(** C2, amended. The overlay neither rejects nor clamps: for
    every logo size, in or out of 10..30, a logo is drawn with side
    [size * logoSize / 100] computed from the value as given, and on a code
    of non-zero size different logo sizes give different sides. *)
Theorem logo_size_taken_as_given (o o' : QROptions) :
  ~ size o == 0 ->
  size o' == size o ->
  logoWidth o = Some (size o * logoSize o / 100) /\
  logoWidth o' = Some (size o' * logoSize o' / 100) /\
  (size o' * logoSize o' / 100 == size o * logoSize o / 100 -> logoSize o' == logoSize o).
Proof.
  intros Hs Hss. split; [|split].
  - unfold logoWidth, drawLogo. now destruct (logoShape o).
  - unfold logoWidth, drawLogo. now destruct (logoShape o').
  - intro H. rewrite Hss in H. qnorm.
    assert (E : size o * (logoSize o' - logoSize o) == 0) by lra.
    apply Qmult_integral in E. destruct E as [E | E]; [now elim Hs | lra].
Qed.

Lemma logo_size_taken_as_given_witness :
  logoWidth oversizedRequest = Some (300 * 50 / 100).
Proof.
  assert (Hs : ~ size oversizedRequest == 0) by (simpl; lra).
  exact (proj1 (logo_size_taken_as_given oversizedRequest oversizedRequest Hs (Qeq_refl _))).
Defined.

(** *** Background and logo regions *)

Lemma canvas_layers (o : QROptions) (dark : bool) (img : Image) :
  runCanvas initCtx [] (drawLogo o dark img) =
  match logoShape o with
  | rounded =>
      [ mkLayer (Disc (origin o - pad o + (side o + pad o * 2) / 2)
                      (origin o - pad o + (side o + pad o * 2) / 2)
                      ((side o + pad o * 2) / 2))
                (Colour (lightColor dark)) [];
        mkLayer (Box (origin o) (origin o) (side o) (side o)) (Bitmap img)
                [Disc (origin o + side o / 2) (origin o + side o / 2) (side o / 2)] ]
  | square =>
      [ mkLayer (Box (origin o - pad o) (origin o - pad o)
                     (side o + pad o * 2) (side o + pad o * 2))
                (Colour (lightColor dark)) [];
        mkLayer (Box (origin o) (origin o) (side o) (side o)) (Bitmap img) [] ]
  end.
Proof. unfold drawLogo. destruct (logoShape o); reflexivity. Qed.

Lemma svg_layers (o : QROptions) (dark : bool) (url : string) :
  runSvg [] (fst (logoElements o dark url) ++ snd (logoElements o dark url)) =
  match logoShape o with
  | rounded =>
      [ mkLayer (Disc (origin o + side o / 2) (origin o + side o / 2)
                      ((side o + pad o * 2) / 2))
                (Colour (lightColor dark)) [];
        mkLayer (Box (origin o) (origin o) (side o) (side o)) (Bitmap url)
                [Disc (origin o + side o / 2) (origin o + side o / 2) (side o / 2)] ]
  | square =>
      [ mkLayer (Box (origin o - pad o) (origin o - pad o)
                     (side o + pad o * 2) (side o + pad o * 2))
                (Colour (lightColor dark)) [];
        mkLayer (Box (origin o) (origin o) (side o) (side o)) (Bitmap url) [] ]
  end.
Proof. unfold logoElements. destruct (logoShape o); reflexivity. Qed.

(** C1. In both the canvas overlay and the SVG markup the logo is a
    square of side [size * logoSize / 100] whose origin is
    [(size - side) / 2] on both axes, and the two paths paint layers of the
    same geometry. *)
Theorem logo_placement_geometry (o : QROptions) (dark : bool) (img url : string) :
  let logoSizePixels := size o * logoSize o / 100 in
  let origin := (size o - logoSizePixels) / 2 in
  drawnImage (drawLogo o dark img) = Some (origin, origin, logoSizePixels, logoSizePixels) /\
  placedImage (fst (logoElements o dark url) ++ snd (logoElements o dark url))
  = Some (origin, origin, logoSizePixels, logoSizePixels) /\
  Forall2 sameGeometry
    (runCanvas initCtx [] (drawLogo o dark img))
    (runSvg [] (fst (logoElements o dark url) ++ snd (logoElements o dark url))).
Proof.
  split; [|split].
  - unfold drawLogo. now destruct (logoShape o).
  - unfold logoElements. now destruct (logoShape o).
  - rewrite canvas_layers, svg_layers.
    destruct (logoShape o); repeat constructor; cbn [shape clips paint regionEq];
      try reflexivity; unfold pad; qnorm; lra.
Qed.

Lemma sq_nonneg (a : Q) : 0 <= a * a.
Proof. nra. Qed.

Lemma abs_le_of_sq (d r : Q) : 0 <= r -> d * d <= r * r -> - r <= d /\ d <= r.
Proof. intros Hr H. split; nra. Qed.

(** A disc inscribed in a box lies inside it. *)
Lemma disc_in_box (x l px py : Q) :
  0 < l ->
  inRegion (Disc (x + l / 2) (x + l / 2) (l / 2)) px py ->
  inRegion (Box x x l l) px py.
Proof.
  cbn [inRegion]. intros Hl [_ H]. qnorm.
  pose proof (sq_nonneg (px - (x + l * (1#2)))) as Hx.
  pose proof (sq_nonneg (py - (x + l * (1#2)))) as Hy.
  destruct (abs_le_of_sq (px - (x + l * (1#2))) (l * (1#2))); [lra | lra |].
  destruct (abs_le_of_sq (py - (x + l * (1#2))) (l * (1#2))); [lra | lra |].
  repeat split; lra.
Qed.

Lemma background_then_logo_layers (o : QROptions) (dark : bool) (picture : string)
    (cx cy : Q) :
  0 < side o ->
  cx == origin o + side o / 2 -> cy == origin o + side o / 2 ->
  backgroundThenLogo o dark picture
    match logoShape o with
    | rounded =>
        [ mkLayer (Disc cx cy ((side o + pad o * 2) / 2)) (Colour (lightColor dark)) [];
          mkLayer (Box (origin o) (origin o) (side o) (side o)) (Bitmap picture)
                  [Disc (origin o + side o / 2) (origin o + side o / 2) (side o / 2)] ]
    | square =>
        [ mkLayer (Box (origin o - pad o) (origin o - pad o)
                       (side o + pad o * 2) (side o + pad o * 2))
                  (Colour (lightColor dark)) [];
          mkLayer (Box (origin o) (origin o) (side o) (side o)) (Bitmap picture) [] ]
    end.
Proof.
  intros Hl Hcx Hcy. unfold backgroundThenLogo, backgroundRegion, logoRegion.
  destruct (logoShape o); do 2 eexists; (split; [reflexivity|]);
    cbn [paint clips shape regionEq];
    (split; [reflexivity|]); (split; [reflexivity|]).
  - (* square *)
    split; [unfold pad; repeat split; lra|].
    split; [reflexivity|]. split; intros px py; unfold shows; cbn [shape clips].
    + split; [now intros [H _] | intro H; split; [exact H | constructor]].
    + intros [H _]. unfold coversStrictly. cbn [shape clips inInterior].
      cbn [inRegion] in H. split; [unfold pad; qnorm; lra | constructor].
  - (* rounded *)
    split; [unfold pad; repeat split; [exact Hcx | exact Hcy | qnorm; lra]|].
    split; [reflexivity|]. split; intros px py; unfold shows; cbn [shape clips].
    + split.
      * intros [_ Hc]. now inversion Hc.
      * intro H. split; [now apply disc_in_box | constructor; [exact H | constructor]].
    + intros [_ Hc]. inversion Hc as [|? ? Hd _]; subst.
      unfold coversStrictly. cbn [shape clips inInterior].
      cbn [inRegion] in Hd. destruct Hd as [_ Hd].
      split; [|constructor]. unfold pad. qnorm. rewrite Hcx, Hcy. qnorm. split; nra.
Qed.

(** C4. Whenever the logo has a positive size, the canvas overlay and
    the SVG markup both paint the background first, in the theme's light
    colour (a disc of radius [(side + 2 pad) / 2] around the logo's centre
    when rounded, a square of side [side + 2 pad] around the logo otherwise,
    with [pad = side / 10]), then the logo, whose drawn region (the disc of
    radius [side / 2], or the square of that side) lies strictly inside the
    background. *)
Theorem background_contains_logo (o : QROptions) (dark : bool) (img url : string) :
  0 < size o * logoSize o / 100 ->
  backgroundThenLogo o dark img (runCanvas initCtx [] (drawLogo o dark img)) /\
  backgroundThenLogo o dark url
    (runSvg [] (fst (logoElements o dark url) ++ snd (logoElements o dark url))).
Proof.
  intro Hl. fold (side o) in Hl. split.
  - rewrite canvas_layers. apply background_then_logo_layers; [assumption | |];
      unfold pad; qnorm; lra.
  - rewrite svg_layers. apply background_then_logo_layers; [assumption | |]; reflexivity.
Qed.

Lemma background_contains_logo_witness :
  backgroundThenLogo sampleRequest false "logo"
    (runCanvas initCtx [] (drawLogo sampleRequest false "logo")).
Proof.
  assert (Hl : 0 < size sampleRequest * logoSize sampleRequest / 100) by reflexivity.
  exact (proj1 (background_contains_logo sampleRequest false "logo" "data:" Hl)).
Defined.

End PlacementFacts.

(* ================================================================== *)
(** ** Vector export *)

Section VectorFacts.

Import JS App.

Lemma noDollar_app (a b : string) : noDollar (a ++ b) = noDollar a && noDollar b.
Proof.
  induction a as [|c a IH]; simpl; [reflexivity|].
  now rewrite IH, andb_assoc.
Qed.

Lemma getSubstitution_plain (matched before after template : string) :
  noDollar template = true ->
  getSubstitution matched before after template = template.
Proof.
  induction template as [|c t IH]; simpl; intro H; [reflexivity|].
  apply andb_true_iff in H. destruct H as [Hc Ht].
  destruct (Ascii.eqb c "$"); [discriminate|]. now rewrite IH.
Qed.

Lemma prefix_refl (p : string) : prefix p p = true.
Proof. rewrite <- (append_nil_r p) at 2. apply prefix_app. Qed.

Lemma occurrences_unfold (pat s : string) :
  occurrences pat s =
  (if prefix pat s then 1 else 0)
  + match s with EmptyString => 0 | String _ s' => occurrences pat s' end.
Proof. destruct s; cbn [occurrences]; lia. Qed.

Lemma occurrences_end (pat a : string) : 1 <= occurrences pat (a ++ pat).
Proof.
  induction a as [|c a IH]; rewrite occurrences_unfold.
  - simpl (_ ++ _). rewrite prefix_refl. lia.
  - simpl (_ ++ _). lia.
Qed.

(** When the pattern occurs once, at the very end, that is where
    [indexOf] finds it. *)
Lemma indexOf_only_occurrence (pat a : string) :
  occurrences pat (a ++ pat) = 1 -> indexOf pat (a ++ pat) = Some (String.length a).
Proof.
  induction a as [|c a IH]; intro H; rewrite indexOf_unfold.
  - simpl (_ ++ _). now rewrite prefix_refl.
  - rewrite occurrences_unfold in H. simpl (_ ++ _) in *.
    pose proof (occurrences_end pat a) as Hend.
    destruct (prefix pat (String c (a ++ pat))); [lia|].
    rewrite IH by lia. reflexivity.
Qed.

Lemma drop_all (s : string) : drop (String.length s) s = "".
Proof. rewrite <- (append_nil_r s) at 2. apply drop_app. Qed.

Lemma replace_only_occurrence (pat template a : string) :
  occurrences pat (a ++ pat) = 1 ->
  noDollar template = true ->
  replace pat template (a ++ pat) = a ++ template.
Proof.
  intros Hocc Hplain. unfold replace.
  rewrite (indexOf_only_occurrence _ _ Hocc), take_app, <- length_append, drop_all.
  now rewrite getSubstitution_plain, append_nil_r.
Qed.

Section WithShow.

Variable show : Q -> string.
Hypothesis show_plain : forall q, noDollar (show q) = true.

Ltac plain :=
  repeat (rewrite noDollar_app);
  repeat (apply andb_true_intro; split);
  try reflexivity; try apply show_plain; try assumption.

Lemma renderElem_plain (e : SvgElem) :
  plainElem e = true -> noDollar (renderElem show e) = true.
Proof.
  destruct e as [cx cy r fill | x y w h fill | i cx cy r | x y w h href [i|]];
    cbn [plainElem renderElem]; unfold attr; intro H;
    try (apply andb_true_iff in H; destruct H as [H H']); plain.
Qed.

Lemma render_plain (es : list SvgElem) :
  forallb plainElem es = true -> noDollar (render show es) = true.
Proof.
  induction es as [|e es IH]; cbn [forallb render]; intro H; [reflexivity|].
  apply andb_true_iff in H. destruct H as [He Hes].
  rewrite noDollar_app, renderElem_plain, IH; auto.
Qed.

Lemma logoMarkup_plain (o : QROptions) (dark : bool) (url : string) :
  noDollar url = true -> noDollar (logoMarkup show o dark url) = true.
Proof.
  intro Hurl. unfold logoMarkup, logoElements.
  destruct (logoShape o); rewrite !noDollar_app, !render_plain; try reflexivity;
    cbn [forallb plainElem]; rewrite ?Hurl; now destruct dark.
Qed.

(** C5. When the base document ends with its only closing tag and a logo
    is present, the exported SVG is the base document with the background
    element and the logo element put immediately before that closing tag:
    everything before the tag is unchanged.  (Number formatting and the
    PNG data URL never contain a dollar sign.) *)
Theorem svg_logo_inserted_before_closing_tag (o : QROptions) (dark : bool)
    (body : string) (f : File) (url : string) (logoDataUrl : File -> option string) :
  occurrences "</svg>" (body ++ "</svg>") = 1 ->
  noDollar url = true ->
  logoFile o = Some f ->
  logoDataUrl f = Some url ->
  downloadSvg show o dark (body ++ "</svg>") logoDataUrl
  = Some (body ++ render show (fst (logoElements o dark url))
               ++ render show (snd (logoElements o dark url)) ++ "</svg>").
Proof.
  intros Hocc Hurl Hf Hload. unfold downloadSvg.
  assert (Ht : truthy (body ++ "</svg>") = true) by now destruct body.
  rewrite Ht, Hf, Hload. cbn [negb]. f_equal.
  rewrite replace_only_occurrence; [| assumption | now apply logoMarkup_plain].
  unfold logoMarkup. now destruct (logoElements o dark url).
Qed.

End WithShow.

End VectorFacts.

Lemma string_of_uint_plain (d : Decimal.uint) :
  noDollar (NilEmpty.string_of_uint d) = true.
Proof. induction d; simpl; auto. Qed.

Lemma showFloor_plain (q : Q) : noDollar (showFloor q) = true.
Proof.
  unfold showFloor, NilZero.string_of_int, NilZero.string_of_uint.
  destruct (Z.to_int (Qfloor q)) as [d|d]; destruct d;
    try reflexivity; apply string_of_uint_plain.
Qed.

Lemma svg_logo_inserted_before_closing_tag_witness :
  App.downloadSvg showFloor sampleRequest false ("<svg><path/>" ++ "</svg>")
    (fun _ => Some "data:image/png;base64,AAAA")
  = Some ("<svg><path/>"
          ++ App.render showFloor
               (fst (App.logoElements sampleRequest false "data:image/png;base64,AAAA"))
          ++ App.render showFloor
               (snd (App.logoElements sampleRequest false "data:image/png;base64,AAAA"))
          ++ "</svg>").
Proof.
  exact (svg_logo_inserted_before_closing_tag showFloor showFloor_plain sampleRequest false
           "<svg><path/>" "logo.png" "data:image/png;base64,AAAA"
           (fun _ => Some "data:image/png;base64,AAAA")
           eq_refl eq_refl eq_refl eq_refl).
Defined.

(* ================================================================== *)
(** * Further properties *)

(** ** Editing the collection *)

Section EditFacts.

Import BatchGenerator.

Lemma remove_unknown (i : string) (items : list BatchItem) :
  ~ In i (map id items) -> removeBatchItem i items = items.
Proof.
  unfold removeBatchItem. induction items as [|x l IH]; simpl; intro H; [reflexivity|].
  destruct (String.eqb_spec (id x) i) as [E|E]; [elim H; now left|].
  simpl. f_equal. apply IH. tauto.
Qed.

Lemma update_unknown (i : string) (field : Field) (value : string) (items : list BatchItem) :
  ~ In i (map id items) -> updateBatchItem i field value items = items.
Proof.
  unfold updateBatchItem. induction items as [|x l IH]; simpl; intro H; [reflexivity|].
  destruct (String.eqb_spec (id x) i) as [E|E]; [elim H; now left|].
  f_equal. apply IH. tauto.
Qed.

(** Removing or updating under an identifier that no item carries leaves
    the collection exactly as it was. *)
Theorem unknown_id_changes_nothing (i : string) (field : Field) (value : string)
    (items : list BatchItem) :
  ~ In i (map id items) ->
  removeBatchItem i items = items /\ updateBatchItem i field value items = items.
Proof. intro H. split; [now apply remove_unknown | now apply update_unknown]. Qed.

Lemma unknown_id_changes_nothing_witness :
  removeBatchItem "7" initialItems = initialItems /\
  updateBatchItem "7" Ftext "x" initialItems = initialItems.
Proof.
  apply unknown_id_changes_nothing. simpl.
  intros [H | [H | [H | []]]]; discriminate H.
Defined.

(** With distinct identifiers, removing an item that is present takes
    out that item and no other: the collection shrinks by one, the
    identifier is gone, every other item stays, in order, and the
    identifiers remain distinct. *)
Theorem remove_takes_out_exactly_one (i : string) (items : list BatchItem) :
  idsDistinct items ->
  In i (map id items) ->
  S (List.length (removeBatchItem i items)) = List.length items /\
  ~ In i (map id (removeBatchItem i items)) /\
  (forall x, In x items -> id x <> i -> In x (removeBatchItem i items)) /\
  idsDistinct (removeBatchItem i items).
Proof.
  intros Hd Hin. split; [|split; [|split]].
  - unfold idsDistinct in Hd. induction items as [|x l IH]; simpl in *; [contradiction|].
    inversion Hd as [|? ? Hx Hl]; subst.
    destruct (String.eqb_spec (id x) i) as [E|E]; simpl.
    + subst i. fold (removeBatchItem (id x) l). now rewrite remove_unknown.
    + f_equal. apply IH; [assumption|]. destruct Hin; [contradiction | assumption].
  - unfold removeBatchItem. intro H. apply in_map_iff in H. destruct H as (x & Hx & H).
    apply filter_In in H. destruct H as [_ H].
    rewrite <- Hx, String.eqb_refl in H. discriminate.
  - intros x Hx Hne. unfold removeBatchItem. apply filter_In. split; [assumption|].
    now destruct (String.eqb_spec (id x) i).
  - now apply removeBatchItem_distinct.
Qed.

Lemma remove_takes_out_exactly_one_witness :
  List.length (removeBatchItem "2" initialItems) = 2.
Proof.
  assert (Hd : idsDistinct initialItems).
  { unfold idsDistinct. simpl. repeat constructor; simpl; intuition discriminate. }
  assert (Hin : In "2" (map id initialItems)) by (simpl; tauto).
  destruct (remove_takes_out_exactly_one "2" initialItems Hd Hin) as (H & _).
  exact (eq_add_S _ 2 H).
Defined.

Lemma update_twice (i : string) (field : Field) (v1 v2 : string) (items : list BatchItem) :
  field <> Fid ->
  updateBatchItem i field v2 (updateBatchItem i field v1 items)
  = updateBatchItem i field v2 items.
Proof.
  intro Hf. unfold updateBatchItem. rewrite map_map. apply map_ext. intro x.
  destruct (String.eqb_spec (id x) i) as [E|E].
  - destruct field; [now elim Hf | |]; simpl; rewrite E, String.eqb_refl; reflexivity.
  - apply String.eqb_neq in E. now rewrite E.
Qed.

(** Updating the text or the file name of an item keeps the identifiers
    as they are (so also the length, the order and their distinctness);
    afterwards every item with that identifier holds the new value, every
    other item is one of before, and a second update of the same field
    overrides the first. *)
Theorem update_sets_one_field (i : string) (field : Field) (v v' : string)
    (items : list BatchItem) :
  field <> Fid ->
  let updated := updateBatchItem i field v items in
  map id updated = map id items /\
  (idsDistinct items -> idsDistinct updated) /\
  (forall y, In y updated -> id y = i -> fieldOf field y = Some v) /\
  (forall y, In y updated -> id y <> i -> In y items) /\
  updateBatchItem i field v' updated = updateBatchItem i field v' items.
Proof.
  intros Hf updated. split; [|split; [|split; [|split]]].
  - now apply updateBatchItem_ids.
  - now apply updateBatchItem_distinct.
  - intros y Hy Hi. unfold updated, updateBatchItem in Hy.
    apply in_map_iff in Hy. destruct Hy as (x & <- & _).
    destruct (String.eqb_spec (id x) i) as [E|E].
    + destruct field; [now elim Hf | |]; reflexivity.
    + contradiction.
  - intros y Hy Hi. unfold updated, updateBatchItem in Hy.
    apply in_map_iff in Hy. destruct Hy as (x & <- & Hx).
    destruct (String.eqb_spec (id x) i) as [E|E]; [|assumption].
    elim Hi. now destruct field.
  - now apply update_twice.
Qed.

Lemma update_sets_one_field_witness :
  map text (updateBatchItem "2" Ftext "hello" initialItems)
  = ["https://example.com"; "hello"; "tel:+1234567890"] /\
  map id (updateBatchItem "2" Ftext "hello" initialItems) = map id initialItems.
Proof.
  assert (Hf : Ftext <> Fid) by discriminate.
  split; [reflexivity|].
  exact (proj1 (update_sets_one_field "2" Ftext "hello" "x" initialItems Hf)).
Defined.

(** An added item is put last, with an empty payload and a numbered file
    name, and the identifiers stay distinct provided the clock reading is
    not yet used as an identifier. *)
Theorem add_appends_a_fresh_item (now : N) (items : list BatchItem) :
  idsDistinct items ->
  ~ In (JS.numToString now) (map id items) ->
  exists item,
    addBatchItem now items = (items ++ [item])%list /\
    id item = JS.numToString now /\ text item = "" /\
    filename item = Some ("qr-code-" ++ JS.numToString (N.of_nat (S (List.length items)))) /\
    idsDistinct (addBatchItem now items).
Proof.
  intros Hd Hn. eexists. split; [reflexivity|]. cbn [id text filename].
  rewrite Nat.add_1_r. repeat split. now apply addBatchItem_distinct.
Qed.

Lemma add_appends_a_fresh_item_witness :
  map id (addBatchItem 1700000000000 initialItems) = ["1"; "2"; "3"; "1700000000000"].
Proof.
  assert (Hd : idsDistinct initialItems).
  { unfold idsDistinct. simpl. repeat constructor; simpl; intuition discriminate. }
  assert (Hn : ~ In (JS.numToString 1700000000000) (map id initialItems)).
  { simpl. intuition discriminate. }
  destruct (add_appends_a_fresh_item 1700000000000 initialItems Hd Hn) as (item & E & Hi & _).
  rewrite E, map_app. simpl. now rewrite Hi.
Defined.

End EditFacts.

(** ** What an import produces *)

Section ImportShape.

Import JS BatchGenerator.

Lemma hasChar_app (c : ascii) (a b : string) :
  hasChar c (a ++ b) = hasChar c a || hasChar c b.
Proof. induction a as [|x a IH]; simpl; [reflexivity | now rewrite IH, orb_assoc]. Qed.

Lemma split_nonempty (sep : ascii) (s : string) : split sep s <> [].
Proof.
  induction s as [|c s IH]; simpl; [discriminate|].
  destruct (Ascii.eqb c sep); [discriminate|]. now destruct (split sep s).
Qed.

(** No part of a split holds the separator, nor a character the whole
    string does not hold. *)
Lemma split_parts (sep d : ascii) (s : string) :
  Forall (fun part => hasChar sep part = false /\
                      (hasChar d s = false -> hasChar d part = false))
         (split sep s).
Proof.
  induction s as [|c s IH]; simpl.
  - repeat constructor.
  - destruct (Ascii.eqb_spec c sep) as [E|E].
    + subst c. constructor; [split; reflexivity|].
      eapply Forall_impl; [|exact IH]. simpl. intros part [H1 H2]. split; [assumption|].
      intro H. apply orb_false_iff in H. tauto.
    + pose proof (split_nonempty sep s) as Hne.
      destruct (split sep s) as [|w ws]; [now elim Hne|].
      inversion IH as [|? ? [H1 H2] Hws]; subst. constructor.
      * simpl. split.
        -- rewrite H1. now destruct (Ascii.eqb_spec c sep).
        -- intro H. apply orb_false_iff in H. destruct H as [Hc H]. rewrite Hc. auto.
      * eapply Forall_impl; [|exact Hws]. simpl. intros part [G1 G2]. split; [assumption|].
        intro H. apply orb_false_iff in H. tauto.
Qed.

Lemma hasChar_trimStart (d : ascii) (s : string) :
  hasChar d s = false -> hasChar d (trimStart s) = false.
Proof.
  induction s as [|c s IH]; simpl; intro H; [reflexivity|].
  apply orb_false_iff in H. destruct H as [Hc H].
  destruct (isWhiteSpace c); [auto|]. simpl. now rewrite Hc, H.
Qed.

Lemma hasChar_trimEnd (d : ascii) (s : string) :
  hasChar d s = false -> hasChar d (trimEnd s) = false.
Proof.
  induction s as [|c s IH]; simpl; intro H; [reflexivity|].
  apply orb_false_iff in H. destruct H as [Hc H]. specialize (IH H).
  destruct (trimEnd s) as [|e t].
  - destruct (isWhiteSpace c); simpl; [reflexivity | now rewrite Hc].
  - simpl in *. now rewrite Hc, IH.
Qed.

Lemma hasChar_removeAll (c d : ascii) (s : string) :
  hasChar c (removeAll c s) = false /\
  (hasChar d s = false -> hasChar d (removeAll c s) = false).
Proof.
  induction s as [|e s [IH1 IH2]]; simpl; [auto|].
  destruct (Ascii.eqb_spec e c) as [E|E].
  - split; [assumption|]. intro H. apply orb_false_iff in H. tauto.
  - simpl. split.
    + rewrite IH1. now destruct (Ascii.eqb_spec e c).
    + intro H. apply orb_false_iff in H. destruct H as [He H]. rewrite He. auto.
Qed.

Lemma digits_plain (d : Decimal.uint) : plainField (NilEmpty.string_of_uint d).
Proof. unfold plainField. induction d; simpl; tauto. Qed.

Lemma numToString_plain (n : N) : plainField (numToString n).
Proof.
  unfold numToString, NilZero.string_of_uint.
  destruct (N.to_uint n); try apply digits_plain. now repeat split.
Qed.

Lemma plainField_app (a b : string) : plainField a -> plainField b -> plainField (a ++ b).
Proof.
  unfold plainField. rewrite !hasChar_app. intros (A1 & A2 & A3) (B1 & B2 & B3).
  now rewrite A1, A2, A3, B1, B2, B3.
Qed.

(** The fields of a line that holds no line feed are plain. *)
Lemma csvFields_plain (line : string) :
  hasChar "010" line = false -> Forall plainField (csvFields line).
Proof.
  intro Hl. unfold csvFields. apply Forall_map.
  eapply Forall_impl; [|exact (split_parts "," "010" line)].
  simpl. intros part [H1 H2]. specialize (H2 Hl). unfold plainField, trim.
  destruct (hasChar_removeAll "034" "," (trimEnd (trimStart part))) as [Q1 Q2].
  destruct (hasChar_removeAll "034" "010" (trimEnd (trimStart part))) as [_ Q3].
  repeat split; auto using hasChar_trimEnd, hasChar_trimStart.
Qed.

Lemma csvLines_no_line_feed (csv : string) :
  Forall (fun line => hasChar "010" line = false) (csvLines csv).
Proof.
  unfold csvLines. apply Forall_forall. intros line H. apply filter_In in H.
  destruct H as [H _]. pose proof (split_parts "010" "010" csv) as P.
  rewrite Forall_forall in P. exact (proj1 (P line H)).
Qed.

Lemma lineToItem_plain (now : nat -> N) (i : nat) (line : string) :
  hasChar "010" line = false ->
  plainField (text (lineToItem now i line)) /\
  exists f, filename (lineToItem now i line) = Some f /\ f <> "" /\ plainField f.
Proof.
  intro Hl. pose proof (csvFields_plain line Hl) as P. rewrite Forall_forall in P.
  assert (D : forall k, plainField ("qr-code-" ++ numToString k)).
  { intro k. apply plainField_app; [now repeat split | apply numToString_plain]. }
  unfold lineToItem. cbn [text filename]. split.
  - destruct (csvFields line) as [|t r]; [now repeat split|]. apply P. now left.
  - destruct (nth_error (csvFields line) 1) as [f|] eqn:E.
    + destruct (truthy f) eqn:T.
      * exists f. split; [reflexivity|]. split; [now destruct f|].
        apply P. eapply nth_error_In, E.
      * eexists. split; [reflexivity|]. split; [discriminate | apply D].
    + eexists. split; [reflexivity|]. split; [discriminate | apply D].
Qed.

Lemma in_mapi_from {A B : Type} (f : nat -> A -> B) (l : list A) :
  forall k y, In y (mapi_from f k l) -> exists j x, In x l /\ y = f (k + j) x.
Proof.
  induction l as [|x l IH]; intros k y H; simpl in H; [contradiction|].
  destruct H as [<- | H].
  - exists 0, x. split; [now left | now rewrite Nat.add_0_r].
  - destruct (IH _ _ H) as (j & z & Hz & ->).
    exists (S j), z. split; [now right | f_equal; lia].
Qed.

(** Every item an import puts into the collection has a non-empty
    payload and a non-empty file name, both free of commas, double quotes
    and line feeds. *)
Theorem imported_items_are_well_formed (now : nat -> N) (csv : string)
    (old items : list BatchItem) :
  handleCSVUpload now (Some csv) old = Done items ->
  forall item, In item items ->
    text item <> "" /\ plainField (text item) /\
    exists f, filename item = Some f /\ f <> "" /\ plainField f.
Proof.
  unfold handleCSVUpload, dataLines. intros H item Hin.
  pose proof (csvLines_no_line_feed csv) as L. rewrite Forall_forall in L.
  destruct (csvLines csv) as [|first rest] eqn:E; [discriminate|].
  injection H as <-. unfold newItems, mapi in Hin. apply filter_In in Hin.
  destruct Hin as [Hin Ht]. apply in_mapi_from in Hin. destruct Hin as (j & line & Hl & ->).
  assert (Hline : hasChar "010" line = false).
  { apply L. destruct (isHeader first); [now right | exact Hl]. }
  destruct (lineToItem_plain now (0 + j) line Hline) as [P1 P2].
  split; [|split; assumption].
  intro E0. rewrite E0 in Ht. discriminate.
Qed.

Lemma imported_items_are_well_formed_witness :
  Forall (fun item => text item <> "")
         (newItems (fun _ => 1000%N) ["https://a.com,site-a"; "tel:+1,phone"]).
Proof.
  apply Forall_forall. intros item Hin.
  exact (proj1 (imported_items_are_well_formed (fun _ => 1000%N) importScenario
                  initialItems _ eq_refl item Hin)).
Defined.

Lemma split_blank (sep : ascii) (s : string) : blank s -> Forall blank (split sep s).
Proof.
  induction s as [|c s IH]; simpl; intro H.
  - now repeat constructor.
  - destruct H as [Hc H]. specialize (IH H).
    destruct (Ascii.eqb c sep); [now constructor|].
    pose proof (split_nonempty sep s) as Hne.
    destruct (split sep s) as [|w ws]; [now elim Hne|].
    inversion IH; subst. constructor; [now split | assumption].
Qed.

(** A file that holds white space only (an empty file, blank lines)
    makes the import callback throw, so the collection is not replaced;
    choosing no file leaves the collection as it is. *)
Theorem blank_file_is_not_imported (now : nat -> N) (csv : string) (old : list BatchItem) :
  blank csv ->
  handleCSVUpload now (Some csv) old = Threw /\
  handleCSVUpload now None old = Done old.
Proof.
  intro H. split; [|reflexivity]. unfold handleCSVUpload.
  assert (E : csvLines csv = []).
  { unfold csvLines. pose proof (split_blank "010" csv H) as F.
    induction F as [|l ls Hl _ IH]; simpl; [reflexivity|].
    now rewrite (proj2 (trim_blank l) Hl). }
  now rewrite E.
Qed.

Lemma blank_file_is_not_imported_witness :
  handleCSVUpload (fun _ => 0%N) (Some (nl ++ "  " ++ nl)) initialItems = Threw.
Proof.
  assert (B : blank (nl ++ "  " ++ nl)) by (simpl; tauto).
  exact (proj1 (blank_file_is_not_imported (fun _ => 0%N) _ initialItems B)).
Defined.

(** The identifiers given by an import are pairwise distinct whenever
    the clock does not run backwards while the lines are converted. *)
Theorem import_gives_distinct_ids (now : nat -> N) (csv : string)
    (old items : list BatchItem) :
  monotone now ->
  handleCSVUpload now (Some csv) old = Done items ->
  idsDistinct items.
Proof.
  unfold handleCSVUpload. intros Hm H.
  destruct (dataLines (csvLines csv)) as [data|]; [|discriminate].
  injection H as <-. now apply import_distinct.
Qed.

Lemma import_gives_distinct_ids_witness :
  idsDistinct (newItems (fun i => 1000 + N.of_nat i)%N
                        ["https://a.com,site-a"; "tel:+1,phone"]).
Proof.
  assert (Hm : monotone (fun i => 1000 + N.of_nat i)%N) by (intros a b Hab; lia).
  exact (import_gives_distinct_ids _ importScenario initialItems _ Hm eq_refl).
Defined.

End ImportShape.

(** ** Outcomes of a batch export *)

Section ExportFacts.

Import BatchGenerator.

Variable generateQRCodeDataURL : string -> option string.
Variables pdfWidth pdfHeight : Q.
Variable splitTextToSize : string -> Q -> list string.

Local Abbreviation export :=
  (downloadBatch generateQRCodeDataURL pdfWidth pdfHeight splitTextToSize).
Local Abbreviation click := (pngClick generateQRCodeDataURL).
Local Abbreviation onePage := (pageImage generateQRCodeDataURL pdfWidth pdfHeight).
Local Abbreviation pageOps := (pageCell generateQRCodeDataURL pdfWidth pdfHeight).
Local Abbreviation ok := (accepted generateQRCodeDataURL).

Lemma all_blank_iff (items : list BatchItem) :
  forallb (fun item => negb (JS.truthy (JS.trim (text item)))) items = true
  <-> Forall (fun item => blank (text item)) items.
Proof.
  rewrite forallb_forall, Forall_forall. split; intros H x Hx.
  - apply trim_blank. specialize (H x Hx). now destruct (JS.truthy (JS.trim (text x))).
  - now rewrite (proj2 (trim_blank (text x)) (H x Hx)).
Qed.

Lemma pngLoop_started (items : list BatchItem) :
  forall done, pngLoop generateQRCodeDataURL items done <> Skipped.
Proof.
  induction items as [|x l IH]; intro done; simpl; [discriminate|].
  destruct (generateQRCodeDataURL (text x)); [apply IH | discriminate].
Qed.

(** An export returns at once exactly when no item has a payload to
    encode, which is also exactly when the download button is disabled
    while no export is running. *)
Theorem export_skipped_iff_nothing_to_encode (format : BatchExportFormat) (now : N)
    (items : list BatchItem) :
  (export format now items = Skipped <-> Forall (fun item => blank (text item)) items) /\
  (downloadDisabled false items = true <-> Forall (fun item => blank (text item)) items).
Proof.
  split; [|unfold downloadDisabled; simpl; apply all_blank_iff].
  rewrite <- all_blank_iff. unfold downloadBatch.
  destruct (forallb _ items) eqn:E.
  - rewrite orb_true_r. tauto.
  - assert (L : (List.length items =? 0)%nat = false) by (now destruct items).
    rewrite L. simpl. split; [|discriminate]. intro H. exfalso. destruct format.
    + now apply pngLoop_started in H.
    + destruct (pagesLoop _ _ _ _ _ _ _); discriminate.
    + destruct (gridLoop _ _ _ _ _ _ _); discriminate.
Qed.

Lemma pngLoop_all (items : list BatchItem) :
  forall done,
    ok items ->
    pngLoop generateQRCodeDataURL items done = Completed (done ++ map click items).
Proof.
  induction items as [|x l IH]; intros done H; simpl.
  - now rewrite app_nil_r.
  - assert (Hx : generateQRCodeDataURL (text x) <> None) by (apply H; now left).
    unfold pngClick at 1, urlOf.
    destruct (generateQRCodeDataURL (text x)) as [u|]; [|now elim Hx].
    rewrite IH by (intros y Hy; apply H; now right).
    now rewrite <- app_assoc.
Qed.

Lemma pngLoop_abort (before after : list BatchItem) (bad : BatchItem) :
  forall done,
    ok before ->
    generateQRCodeDataURL (text bad) = None ->
    pngLoop generateQRCodeDataURL (before ++ bad :: after) done
    = Aborted (done ++ map click before).
Proof.
  induction before as [|x l IH]; intros done H Hbad; simpl.
  - now rewrite Hbad, app_nil_r.
  - assert (Hx : generateQRCodeDataURL (text x) <> None) by (apply H; now left).
    unfold pngClick at 1, urlOf.
    destruct (generateQRCodeDataURL (text x)) as [u|]; [|now elim Hx].
    rewrite IH by (try assumption; intros y Hy; apply H; now right).
    now rewrite <- app_assoc.
Qed.

Lemma pagesLoop_abort (before after : list BatchItem) (bad : BatchItem) :
  forall i doc,
    ok before ->
    generateQRCodeDataURL (text bad) = None ->
    pagesLoop generateQRCodeDataURL pdfWidth pdfHeight splitTextToSize i
      (before ++ bad :: after) doc = None.
Proof.
  induction before as [|x l IH]; intros i doc H Hbad; cbn [app pagesLoop].
  - now rewrite Hbad.
  - assert (Hx : generateQRCodeDataURL (text x) <> None) by (apply H; now left).
    destruct (generateQRCodeDataURL (text x)) as [u|]; [|now elim Hx].
    apply IH; [|assumption]. intros y Hy. apply H. now right.
Qed.

Lemma gridLoop_abort (before after : list BatchItem) (bad : BatchItem) :
  forall i currentPage doc,
    ok before ->
    generateQRCodeDataURL (text bad) = None ->
    gridLoop generateQRCodeDataURL pdfWidth pdfHeight i
      (before ++ bad :: after) currentPage doc = None.
Proof.
  induction before as [|x l IH]; intros i cp doc H Hbad; cbn [app gridLoop].
  - destruct (cp <? i / (cols * rows))%nat; now rewrite Hbad.
  - assert (Hx : generateQRCodeDataURL (text x) <> None) by (apply H; now left).
    destruct (cp <? i / (cols * rows))%nat;
      (destruct (generateQRCodeDataURL (text x)) as [u|]; [|now elim Hx]);
      (apply IH; [|assumption]); intros y Hy; apply H; now right.
Qed.

(** When the encoder accepts every valid item, the PNG export triggers
    one download per valid item, in collection order, named after the
    item's file name (or [qr-code] when it has none). *)
Theorem png_export_downloads_each_valid_item (now : N) (items : list BatchItem) :
  filter nonBlank items <> [] ->
  ok (filter nonBlank items) ->
  export png_zip now items = Completed (map click (filter nonBlank items)).
Proof.
  intros Hne Hok. pose proof (some_valid nonBlank items Hne) as Hc. unfold nonBlank in Hc.
  unfold downloadBatch. rewrite Hc.
  change (filter (fun item => JS.truthy (JS.trim (text item))) items) with (filter nonBlank items).
  now rewrite pngLoop_all.
Qed.

(** The first valid item the encoder rejects ends the export.  The PNG
    export has by then triggered the downloads of the valid items before
    it, and only those; the two PDF exports save nothing at all. *)
Theorem rejected_item_aborts_export (now : N) (items before after : list BatchItem)
    (bad : BatchItem) :
  filter nonBlank items = (before ++ bad :: after)%list ->
  ok before ->
  generateQRCodeDataURL (text bad) = None ->
  export png_zip now items = Aborted (map click before) /\
  export pdf_pages now items = Aborted [] /\
  export pdf_grid now items = Aborted [].
Proof.
  intros Hv Hok Hbad.
  assert (Hne : filter nonBlank items <> []) by (rewrite Hv; now destruct before).
  pose proof (some_valid nonBlank items Hne) as Hc. unfold nonBlank in Hc.
  unfold downloadBatch. rewrite Hc.
  change (filter (fun item => JS.truthy (JS.trim (text item))) items) with (filter nonBlank items).
  rewrite Hv. repeat split.
  - now rewrite pngLoop_abort.
  - now rewrite pagesLoop_abort.
  - now rewrite gridLoop_abort.
Qed.

Lemma pagesLoop_layout (items : list BatchItem) :
  forall (i : nat) (doc : list PdfOp),
    ok items ->
    exists doc',
      pagesLoop generateQRCodeDataURL pdfWidth pdfHeight splitTextToSize i items doc = Some doc' /\
      layoutOf doc' = (layoutOf doc ++ List.concat (mapi_from pageOps i items))%list.
Proof.
  induction items as [|item rest IH]; intros i doc Hok.
  - exists doc. split; [reflexivity | simpl; now rewrite app_nil_r].
  - cbn [pagesLoop mapi_from List.concat].
    assert (Hitem : generateQRCodeDataURL (text item) <> None) by (apply Hok; now left).
    assert (Hrest : ok rest) by (intros x Hx; apply Hok; now right).
    unfold pageCell at 1, pageImage, urlOf.
    destruct (generateQRCodeDataURL (text item)) as [dataUrl|]; [|now elim Hitem].
    match goal with
    | |- exists d, pagesLoop _ _ _ _ _ _ ?D = _ /\ _ =>
        destruct (IH (S i) D Hrest) as (doc' & Hrun & Hlay)
    end.
    exists doc'. split; [exact Hrun|].
    rewrite Hlay. destruct (0 <? i)%nat; rewrite !layoutOf_app; simpl;
      now rewrite <- !app_assoc.
Qed.

Lemma placedFrom_pages (items : list BatchItem) :
  forall i,
    placedFrom (i - 1) (List.concat (mapi_from pageOps i items))
    = mapi_from (fun i item => (i, onePage item)) i items.
Proof.
  induction items as [|item rest IH]; intro i; [reflexivity|].
  cbn [mapi_from List.concat]. unfold pageCell at 1.
  specialize (IH (S i)). replace (S i - 1) with i in IH by lia.
  destruct i as [|i]; cbn [Nat.ltb Nat.leb app].
  - change (placedFrom (0 - 1) (onePage item :: ?r)) with ((0, onePage item) :: placedFrom 0 r).
    now rewrite IH.
  - change (placedFrom (S i - 1) (AddPage :: onePage item :: ?r))
      with ((S (S i - 1), onePage item) :: placedFrom (S (S i - 1)) r).
    replace (S (S i - 1)) with (S i) by lia. now rewrite IH.
Qed.

Lemma pages_breaks (items : list BatchItem) :
  forall i,
    List.length (filter isAddPage (List.concat (mapi_from pageOps i items)))
    = List.length (filter (fun i => (0 <? i)%nat) (seq i (List.length items))).
Proof.
  induction items as [|item rest IH]; intro i; [reflexivity|].
  cbn [mapi_from List.concat List.length seq filter]. unfold pageCell at 1.
  rewrite filter_app, length_app, IH. destruct (0 <? i)%nat; reflexivity.
Qed.

Lemma filter_positive (n : nat) :
  List.length (filter (fun i => (0 <? i)%nat) (seq 1 n)) = n.
Proof.
  rewrite forallb_filter_id; [apply length_seq|].
  apply forallb_forall. intros x Hx. apply in_seq in Hx. apply Nat.ltb_lt. lia.
Qed.

(** When the encoder accepts every valid item, the one-per-page export
    saves a single document with as many pages as valid items, the code of
    the valid item at index [i] alone on page [i], centred the same way on
    every page. *)
Theorem pdf_pages_one_code_per_page (now : N) (items : list BatchItem) :
  filter nonBlank items <> [] ->
  ok (filter nonBlank items) ->
  exists doc,
    export pdf_pages now items
    = Completed [Saved ("qrbrandr-batch-" ++ JS.numToString now ++ ".pdf") doc] /\
    placed doc = mapi (fun i item => (i, onePage item)) (filter nonBlank items) /\
    pageCount doc = List.length (filter nonBlank items).
Proof.
  intros Hne Hok.
  destruct (pagesLoop_layout (filter nonBlank items) 0 [] Hok) as (doc & Hrun & Hlay).
  simpl in Hlay. exists doc. split; [|split].
  - pose proof (some_valid nonBlank items Hne) as Hc. unfold nonBlank in Hc.
    unfold downloadBatch. rewrite Hc.
    change (filter (fun item => JS.truthy (JS.trim (text item))) items)
      with (filter nonBlank items).
    now rewrite Hrun.
  - unfold placed. rewrite placedFrom_layoutOf, Hlay.
    apply (placedFrom_pages (filter nonBlank items) 0).
  - unfold pageCount. rewrite <- filter_isAddPage_layoutOf, Hlay, pages_breaks.
    destruct (filter nonBlank items) as [|x l]; [now elim Hne|].
    cbn [List.length seq filter Nat.ltb Nat.leb]. now rewrite filter_positive.
Qed.

End ExportFacts.

Lemma png_export_downloads_each_valid_item_witness :
  BatchGenerator.downloadBatch sampleEncoder 210 297 (fun s _ => [s])
    BatchGenerator.png_zip 0 threeItems
  = BatchGenerator.Completed
      [ BatchGenerator.Click "a.png" "data:image/png;base64,https://a.com";
        BatchGenerator.Click "qr-code.png" "data:image/png;base64,https://b.com" ].
Proof.
  assert (Hne : filter BatchGenerator.nonBlank threeItems <> []) by (vm_compute; discriminate).
  assert (Hok : accepted sampleEncoder (filter BatchGenerator.nonBlank threeItems))
    by (intros item _; discriminate).
  exact (png_export_downloads_each_valid_item sampleEncoder 210 297 (fun s _ => [s]) 0%N
           threeItems Hne Hok).
Defined.

Lemma rejected_item_aborts_export_witness :
  BatchGenerator.downloadBatch pickyEncoder 210 297 (fun s _ => [s])
    BatchGenerator.png_zip 0 itemsWithRejected
  = BatchGenerator.Aborted
      [BatchGenerator.Click "a.png" "data:image/png;base64,https://a.com"] /\
  BatchGenerator.downloadBatch pickyEncoder 210 297 (fun s _ => [s])
    BatchGenerator.pdf_grid 0 itemsWithRejected
  = BatchGenerator.Aborted [].
Proof.
  assert (Hok : accepted pickyEncoder [BatchGenerator.mkItem "1" "https://a.com" (Some "a")]).
  { intros item [<- | []]. discriminate. }
  destruct (rejected_item_aborts_export pickyEncoder 210 297 (fun s _ => [s]) 0%N
              itemsWithRejected
              [BatchGenerator.mkItem "1" "https://a.com" (Some "a")]
              [BatchGenerator.mkItem "3" "https://b.com" None]
              (BatchGenerator.mkItem "2" "too-long" None) eq_refl Hok eq_refl)
    as (H1 & _ & H3).
  split; [exact H1 | exact H3].
Defined.

Lemma pdf_pages_one_code_per_page_witness :
  exists doc,
    BatchGenerator.downloadBatch sampleEncoder 210 297 (fun s _ => [s])
      BatchGenerator.pdf_pages 0 threeItems
    = BatchGenerator.Completed [BatchGenerator.Saved "qrbrandr-batch-0.pdf" doc] /\
    BatchGenerator.pageCount doc = 2.
Proof.
  assert (Hne : filter BatchGenerator.nonBlank threeItems <> []) by (vm_compute; discriminate).
  assert (Hok : accepted sampleEncoder (filter BatchGenerator.nonBlank threeItems))
    by (intros item _; discriminate).
  destruct (pdf_pages_one_code_per_page sampleEncoder 210 297 (fun s _ => [s]) 0%N
              threeItems Hne Hok) as (doc & Hrun & _ & Hn).
  exists doc. split; [exact Hrun | exact Hn].
Defined.

Section ExportComposition.

Import BatchGenerator.

Variable generateQRCodeDataURL : string -> option string.
Variables pdfWidth pdfHeight : Q.
Variable splitTextToSize : string -> Q -> list string.

Local Abbreviation export :=
  (downloadBatch generateQRCodeDataURL pdfWidth pdfHeight splitTextToSize).

(** An item just added has an empty payload, so until it is filled in
    it changes neither what an export delivers nor what the preview shows. *)
Theorem added_item_does_not_reach_exports (format : BatchExportFormat) (clock now : N)
    (items : list BatchItem) :
  export format now (addBatchItem clock items) = export format now items /\
  previewItems (addBatchItem clock items) = previewItems items /\
  previewMore (addBatchItem clock items) = previewMore items.
Proof.
  assert (F : filter (fun item => JS.truthy (JS.trim (text item))) (addBatchItem clock items)
              = filter (fun item => JS.truthy (JS.trim (text item))) items).
  { unfold addBatchItem. rewrite filter_app. simpl. apply app_nil_r. }
  split; [|split].
  - unfold addBatchItem.
    rewrite (export_ignores_blank generateQRCodeDataURL pdfWidth pdfHeight splitTextToSize
               format now items []); [now rewrite app_nil_r | exact I].
  - unfold previewItems. now rewrite F.
  - unfold previewMore. now rewrite F.
Qed.

(** The preview shows at most twelve items, none of them blank, taken
    from the front of the valid items; together with the announced
    remainder they account for every valid item, and a remainder is
    announced only when it is positive. *)
Theorem preview_accounts_for_valid_items (items : list BatchItem) :
  List.length (previewItems items) <= 12 /\
  (forall item, In item (previewItems items) -> In item items /\ ~ blank (text item)) /\
  (exists rest, filter nonBlank items = (previewItems items ++ rest)%list /\
     List.length rest = match previewMore items with Some n => n | None => 0 end) /\
  previewMore items <> Some 0.
Proof.
  unfold previewItems, previewMore.
  change (filter (fun item => JS.truthy (JS.trim (text item))) items) with (filter nonBlank items).
  set (valid := filter nonBlank items).
  split; [|split; [|split]].
  - rewrite length_firstn. lia.
  - intros item Hin.
    assert (Hv : In item valid).
    { rewrite <- (firstn_skipn 12 valid). apply in_or_app. now left. }
    apply filter_In in Hv. destruct Hv as [Hi Hn].
    split; [assumption|]. intro B. apply nonBlank_false_iff in B. congruence.
  - exists (skipn 12 valid). split; [now rewrite firstn_skipn|].
    rewrite length_skipn. destruct (Nat.ltb_spec 12 (List.length valid)); lia.
  - destruct (Nat.ltb_spec 12 (List.length valid)); [|discriminate].
    intros [= H0]. lia.
Qed.



End ExportComposition.


(* ================================================================== *)
(** ** Generation and download of the single code *)

Section GenerateFacts.

Import JS App.

Variable encodable : string -> ErrorCorrectionLevel -> bool.
Variable toSvgString : string -> Q -> ErrorCorrectionLevel -> string -> string -> string.
Variable toDataURL : list CanvasOp -> string.
Variable loadImage : File -> option Image.

Local Abbreviation generate := (generateQRCode encodable toSvgString toDataURL loadImage).

(** Generation never touches the options or the theme, leaves the busy
    flag cleared whenever the payload is not blank, and logs at most one
    error, which it does only when the encoder rejects the payload; in that
    case, and when no canvas is mounted, the artifacts of the previous
    generation are kept. *)
Theorem generation_frame (st : AppState) :
  let st' := generate st in
  options st' = options st /\ isDarkMode st' = isDarkMode st /\
  (~ blank (text (options st)) -> isGenerating st' = false) /\
  (errors st' = errors st \/
   errors st' = S (errors st) /\
   encodable (text (options st)) (errorCorrectionLevel (options st)) = false) /\
  (errors st' = S (errors st) \/ canvas st = None ->
   qrDataUrl st' = qrDataUrl st /\ qrSvgString st' = qrSvgString st).
Proof.
  unfold generateQRCode.
  destruct (truthy (trim (text (options st)))) eqn:T; cbn [negb].
  - destruct (canvas st) as [old|] eqn:C.
    + destruct (encodable (text (options st)) (errorCorrectionLevel (options st))) eqn:E;
        cbn [negb].
      * destruct (logoFile (options st)) as [f|]; [destruct (loadImage f)|];
          cbn; (split; [reflexivity|]); (split; [reflexivity|]); (split; [reflexivity|]);
          (split; [now left|]); intros [H | H]; try discriminate H; exfalso; lia.
      * cbn. repeat split; auto.
    + cbn. repeat split; auto.
  - split; [reflexivity|]. split; [reflexivity|]. split; [|split].
    + intro H. elim H. now apply trim_blank.
    + now left.
    + intros _. now split.
Qed.




(** Drawing the logo leaves the context without any clipping region and
    with an empty [save] stack: whatever is drawn afterwards is not cut by
    the logo's circular clip. *)
Theorem logo_clip_is_released (o : QROptions) (dark : bool) (img : Image) :
  exists c,
    clipping c = [] /\ saved c = [] /\ fillStyle c = lightColor dark /\
    forall more,
      runCanvas initCtx [] (drawLogo o dark img ++ more)
      = runCanvas c (runCanvas initCtx [] (drawLogo o dark img)) more.
Proof.
  unfold drawLogo.
  destruct (logoShape o); eexists;
    (split; [|split; [|split; [|intro more; reflexivity]]]); reflexivity.
Qed.

End GenerateFacts.


Section DownloadFacts.

Import JS App.

Variable show : Q -> string.
Hypothesis show_plain : forall q, noDollar (show q) = true.
Variable logoDataUrl : File -> option string.
Variables pdfWidth pdfHeight : Q.
Variable today : string.

Local Abbreviation download := (downloadQRCode show logoDataUrl pdfWidth pdfHeight today).

Lemma append_assoc (a b c : string) : (a ++ b) ++ c = a ++ (b ++ c).
Proof. induction a as [|x a IH]; simpl; [reflexivity | now rewrite IH]. Qed.

Lemma drop_app_plus (a r : string) (k : nat) :
  drop (String.length a + k) (a ++ r) = drop k r.
Proof. induction a as [|x a IH]; simpl; [reflexivity | assumption]. Qed.

Lemma take_drop (n : nat) (s : string) : take n s ++ drop n s = s.
Proof.
  revert s. induction n as [|n IH]; intros [|c s]; simpl; try reflexivity.
  now rewrite IH.
Qed.

(** [replace] with a replacement free of dollar signs puts it in place
    of the first occurrence and keeps the rest. *)
Lemma replace_first (pat template s : string) (n : nat) :
  noDollar template = true ->
  indexOf pat s = Some n ->
  replace pat template s = take n s ++ template ++ drop (String.length pat) (drop n s).
Proof.
  intros Hp Hi. unfold replace. rewrite Hi, getSubstitution_plain by assumption.
  destruct (indexOf_sound _ _ _ Hi) as (a & b & -> & <-).
  now rewrite drop_app_plus, !drop_app.
Qed.

(** The SVG export with a logo only ever inserts: the background and
    logo elements go right before the first closing tag of the base
    document, whose characters are all kept in order; a base document
    without a closing tag is exported as it is, without the logo. *)
Theorem svg_export_only_inserts (o : QROptions) (dark : bool) (base : string)
    (f : File) (url : string) :
  truthy base = true ->
  noDollar url = true ->
  logoFile o = Some f ->
  logoDataUrl f = Some url ->
  let elements := render show (fst (logoElements o dark url))
                  ++ render show (snd (logoElements o dark url)) in
  (indexOf "</svg>" base = None ->
   downloadSvg show o dark base logoDataUrl = Some base) /\
  (forall n, indexOf "</svg>" base = Some n ->
     downloadSvg show o dark base logoDataUrl
     = Some (take n base ++ elements ++ drop n base) /\
     take n base ++ drop n base = base).
Proof.
  intros Ht Hurl Hf Hload elements. unfold downloadSvg. rewrite Ht, Hf, Hload. cbn [negb].
  split.
  - intro Hi. unfold replace. now rewrite Hi.
  - intros n Hi. split; [|apply take_drop]. f_equal.
    rewrite (replace_first _ _ _ n (logoMarkup_plain show show_plain o dark url Hurl) Hi).
    f_equal. unfold logoMarkup, elements.
    destruct (logoElements o dark url) as [bg logo]. cbn [fst snd].
    rewrite !append_assoc. do 2 f_equal.
    destruct (indexOf_sound _ _ _ Hi) as (a & b & -> & <-).
    now rewrite drop_app, drop_app.
Qed.

(** The PDF export is never held back: it always saves one single-page
    document, with the code on it exactly when a PNG artifact exists; on a
    page of non-negative size the code is then a square centred on the page
    and inside it. *)
Theorem pdf_export_always_saves_one_page (timestamp : N) (st : AppState) :
  (0 <= pdfWidth)%Q -> (0 <= pdfHeight)%Q ->
  exists doc,
    download pdf timestamp st
    = [PdfSave ("qrbrandr-qr-code-" ++ numToString timestamp ++ ".pdf") doc] /\
    BatchGenerator.pageCount doc = 1 /\
    (truthy (qrDataUrl st) = false -> BatchGenerator.placed doc = []) /\
    (truthy (qrDataUrl st) = true ->
     exists x y side,
       BatchGenerator.placed doc = [(0, BatchGenerator.AddImage (qrDataUrl st) x y side side)] /\
       (0 <= side /\ x + side / 2 == pdfWidth / 2 /\ y + side / 2 == pdfHeight / 2)%Q /\
       within x y side side 0 0 pdfWidth pdfHeight).
Proof.
  intros Hw Hh. unfold downloadQRCode. rewrite !andb_false_r.
  eexists. split; [reflexivity|].
  pose proof (Q.le_min_l (pdfWidth * (6#10)) (pdfHeight * (6#10))) as M1.
  pose proof (Q.le_min_r (pdfWidth * (6#10)) (pdfHeight * (6#10))) as M2.
  assert (M3 : (0 <= Qmin (pdfWidth * (6#10)) (pdfHeight * (6#10)))%Q)
    by (apply Q.min_glb; lra).
  destruct (truthy (qrDataUrl st)); (split; [reflexivity|]); split;
    try discriminate; try reflexivity.
  intros _. do 3 eexists. split; [reflexivity|]. unfold within.
  set (m := Qmin (pdfWidth * (6#10)) (pdfHeight * (6#10))) in *.
  qnorm. repeat split; lra.
Qed.

End DownloadFacts.

Lemma svg_export_only_inserts_witness :
  App.downloadSvg showFloor sampleRequest false "<svg></svg></svg>"
    (fun _ => Some "data:image/png;base64,AAAA")
  = Some ("<svg>"
          ++ (App.render showFloor
                (fst (App.logoElements sampleRequest false "data:image/png;base64,AAAA"))
              ++ App.render showFloor
                   (snd (App.logoElements sampleRequest false "data:image/png;base64,AAAA")))
          ++ "</svg></svg>").
Proof.
  destruct (svg_export_only_inserts showFloor showFloor_plain
              (fun _ => Some "data:image/png;base64,AAAA") sampleRequest false
              "<svg></svg></svg>" "logo.png" "data:image/png;base64,AAAA"
              eq_refl eq_refl eq_refl eq_refl) as [_ H].
  exact (proj1 (H 5 eq_refl)).
Defined.

Lemma pdf_export_always_saves_one_page_witness :
  exists doc,
    App.downloadQRCode showFloor (fun _ => None) 210 297 "1/1/2026" App.pdf 5 sampleState
    = [App.PdfSave "qrbrandr-qr-code-5.pdf" doc] /\
    BatchGenerator.placed doc = [].
Proof.
  assert (Hw : (0 <= 210)%Q) by (unfold Qle; simpl; lia).
  assert (Hh : (0 <= 297)%Q) by (unfold Qle; simpl; lia).
  destruct (pdf_export_always_saves_one_page showFloor (fun _ => None) 210 297 "1/1/2026"
              5%N sampleState Hw Hh) as (doc & Hrun & _ & Hnone & _).
  exists doc. split; [exact Hrun | exact (Hnone eq_refl)].
Defined.

Section GenerateThenDownload.

Import JS App.

Variable encodable : string -> ErrorCorrectionLevel -> bool.
Variable toSvgString : string -> Q -> ErrorCorrectionLevel -> string -> string -> string.
Variable toDataURL : list CanvasOp -> string.
Variable loadImage : File -> option Image.
Variable show : Q -> string.
Variable logoDataUrl : File -> option string.
Variables pdfWidth pdfHeight : Q.
Variable today : string.

Local Abbreviation generate := (generateQRCode encodable toSvgString toDataURL loadImage).
Local Abbreviation download := (downloadQRCode show logoDataUrl pdfWidth pdfHeight today).

(** After a generation without logo that the encoder accepts, what is
    downloaded comes from the current request alone: the SVG export is the
    encoder's document for the current payload, size, level and theme, the
    PNG export the encoding of the freshly drawn canvas, whatever artifacts
    and canvas content were there before. *)
Theorem export_follows_generation_without_logo (st : AppState) (old : list CanvasOp)
    (timestamp : N) :
  ~ blank (text (options st)) ->
  canvas st = Some old ->
  encodable (text (options st)) (errorCorrectionLevel (options st)) = true ->
  logoFile (options st) = None ->
  let o := options st in
  let dark := isDarkMode st in
  let svgString :=
    toSvgString (text o) (size o) (errorCorrectionLevel o) (darkColor dark) (lightColor dark) in
  let name := "qrbrandr-qr-code-" ++ numToString timestamp in
  (truthy svgString = true ->
   download svg timestamp (generate st) = [BlobClick (name ++ ".svg") svgString]) /\
  (truthy (toDataURL (baseCanvas o dark)) = true ->
   download png timestamp (generate st)
   = [LinkClick (name ++ ".png") (toDataURL (baseCanvas o dark))]).
Proof.
  intros Hb Hc He Hl o dark svgString name.
  assert (T : truthy (trim (text (options st))) = true).
  { destruct (truthy (trim (text (options st)))) eqn:T; [reflexivity|].
    elim Hb. now apply trim_blank. }
  assert (G : generate st
              = mkState o dark (toDataURL (baseCanvas o dark)) svgString false
                        (Some (baseCanvas o dark)) (errors st)).
  { unfold generateQRCode. now rewrite T, Hc, He, Hl. }
  rewrite G. unfold downloadQRCode, downloadSvg. cbn [qrDataUrl qrSvgString options isDarkMode].
  split; intro H; rewrite H; cbn [negb andb]; rewrite ?andb_false_r.
  - change (logoFile o) with (logoFile (options st)). rewrite Hl. reflexivity.
  - reflexivity.
Qed.

End GenerateThenDownload.

Lemma export_follows_generation_without_logo_witness :
  App.downloadQRCode showFloor (fun _ => None) 210 297 "1/1/2026" App.svg 5
    (App.generateQRCode (fun _ _ => true) (fun t _ _ _ _ => "<svg>" ++ t ++ "</svg>")
       (fun _ => "data:image/png;base64,AAAA") (fun _ => None)
       (App.mkState (App.mkOptions "hello" 300 App.EcH 20 None App.rounded)
                    false "" "" false (Some []) 0))
  = [App.BlobClick "qrbrandr-qr-code-5.svg" "<svg>hello</svg>"].
Proof.
  assert (Hb : ~ blank "hello") by (simpl; intros [H _]; discriminate H).
  exact (proj1 (export_follows_generation_without_logo (fun _ _ => true)
                  (fun t _ _ _ _ => "<svg>" ++ t ++ "</svg>")
                  (fun _ => "data:image/png;base64,AAAA") (fun _ => None)
                  showFloor (fun _ => None) 210 297 "1/1/2026"
                  (App.mkState (App.mkOptions "hello" 300 App.EcH 20 None App.rounded)
                               false "" "" false (Some []) 0)
                  [] 5%N Hb eq_refl eq_refl eq_refl) eq_refl).
Defined.
